(** * gorequests: the Response wrapper

    A shallow embedding of the two versions of the [Response] type of
    package [requests4go] that the repository holds:

    - [Current]: response.go (embedded [*http.Response], [content []byte]);
    - [Legacy]:  the earlier version (explicit [RawResponse], a
      [*bytes.Buffer] cache and an [internalError] field).

    Go values are modelled as follows.  An [error] is [option error]
    ([None] is [nil]); a [[]byte] is [option (list byte)] where [None] is the
    nil slice and [Some []] an empty, non-nil one; an [int] that is only
    compared is a [Z].  A call either returns or panics ([outcome]); a
    function that contains a loop takes a budget of iterations and answers
    [None] when the budget does not suffice, so that a loop that never ends
    is a function that answers [None] for every budget.  The embedded
    [*http.Response] of response.go is taken to be non-nil. *)

From Stdlib Require Import ZArith List String Ascii Strings.Byte Bool Lia.
From stdpp Require Import base option list gmap strings fin_maps.
Import ListNotations.

Set Warnings "-abstract-large-number".

Set Default Proof Using "Type".

(** ** Errors, outcomes *)

Inductive error : Type :=
| io_EOF
| io_ErrUnexpectedEOF
| http_errReadOnClosedResBody
| gzip_ErrHeader
| zlib_ErrHeader
| zlib_ErrDictionary
| flate_CorruptInputError (msg : string)
| net_Error (msg : string)            (* the transport failed *)
| json_SyntaxError (msg : string)
| os_PathError (path : string)
| io_ErrShortWrite
| fmt_Errorf (prefix : string) (wrapped : error).  (* fmt.Errorf(prefix ++ ": %w", err) *)

Definition error_eqb_EOF (e : error) : bool :=
  match e with io_EOF => true | _ => false end.

Definition error_eqb_UnexpectedEOF (e : error) : bool :=
  match e with io_ErrUnexpectedEOF => true | _ => false end.

Inductive outcome (A : Type) : Type :=
| Returns (a : A)
| Panics (reason : string).
Arguments Returns {A} a.
Arguments Panics {A} reason.

Definition nil_dereference : string := "invalid memory address or nil pointer dereference".

(** ** The body stream handed over by net/http

    [pending] is what the peer has sent and nobody has read yet, [failure]
    the error that ends the stream instead of [io.EOF] (a reset connection),
    [reads] and [closes] count the calls that reached the stream. *)

Record Stream : Type := mkStream {
  pending : list byte;
  failure : option error;
  closed : bool;
  reads : nat;
  closes : nat
}.

Definition open_stream (bs : list byte) : Stream :=
  mkStream bs None false 0 0.

(** [Body.Read(p)] with [len(p) = n]. A closed body answers
    [http: read on closed response body]. *)
Definition Stream_Read (n : nat) (s : Stream) : (list byte * option error) * Stream :=
  let counted p := mkStream p (failure s) (closed s) (S (reads s)) (closes s) in
  if closed s then (([], Some http_errReadOnClosedResBody), counted (pending s))
  else match pending s with
       | [] => (([], Some (default io_EOF (failure s))), counted [])
       | _ :: _ => ((take n (pending s), None), counted (drop n (pending s)))
       end.

Definition Stream_Close (s : Stream) : option error * Stream :=
  (None, mkStream (pending s) (failure s) true (reads s) (S (closes s))).

(** ** http.Header *)

Definition is_lower (c : ascii) : bool :=
  let n := nat_of_ascii c in (97 <=? n)%nat && (n <=? 122)%nat.
Definition is_upper (c : ascii) : bool :=
  let n := nat_of_ascii c in (65 <=? n)%nat && (n <=? 90)%nat.
Definition is_digit (c : ascii) : bool :=
  let n := nat_of_ascii c in (48 <=? n)%nat && (n <=? 57)%nat.

Definition to_upper (c : ascii) : ascii :=
  if is_lower c then ascii_of_nat (nat_of_ascii c - 32) else c.
Definition to_lower (c : ascii) : ascii :=
  if is_upper c then ascii_of_nat (nat_of_ascii c + 32) else c.

(* textproto: the bytes allowed in a header field name (RFC 7230 token) *)
Definition validHeaderFieldByte (c : ascii) : bool :=
  is_lower c || is_upper c || is_digit c ||
  existsb (Ascii.eqb c) (list_ascii_of_string "!#$%&'*+-.^_`|~").

Fixpoint canonical_from (upper : bool) (s : string) : string :=
  match s with
  | EmptyString => EmptyString
  | String c rest =>
      let c' := if upper then to_upper c else to_lower c in
      String c' (canonical_from (Ascii.eqb c' "-"%char) rest)
  end.

(* textproto.CanonicalMIMEHeaderKey *)
Definition CanonicalMIMEHeaderKey (s : string) : string :=
  if forallb validHeaderFieldByte (list_ascii_of_string s)
  then canonical_from true s
  else s.

Definition Header_Get (h : gmap string (list string)) (key : string) : string :=
  match h !! CanonicalMIMEHeaderKey key with
  | Some (v :: _) => v
  | _ => EmptyString
  end.

Definition Header_Add (key value : string) (h : gmap string (list string))
  : gmap string (list string) :=
  let k := CanonicalMIMEHeaderKey key in
  <[k := default [] (h !! k) ++ [value]]> h.

(** ** Reading loops of the standard library

    [src_Read n] is the [Read] method of the source with a buffer of [n]
    bytes.  The source may be the body itself or the Response (which is an
    io.Reader in both versions). *)

Section Source.
Context {St : Type}.
Variable src_Read : nat -> St -> option (outcome (list byte * option error) * St).

(* the loop shared by ioutil.ReadAll, io.Copy and bytes.Buffer.ReadFrom:
   read until the source reports an error; answer what was read and that
   error *)
Fixpoint read_until_error (budget bufsz : nat) (acc : list byte) (s : St)
  : option (outcome (list byte * error) * St) :=
  match budget with
  | O => None
  | S budget' =>
      match src_Read bufsz s with
      | None => None
      | Some (Panics m, s1) => Some (Panics m, s1)
      | Some (Returns (bs, Some e), s1) => Some (Returns (acc ++ bs, e), s1)
      | Some (Returns (bs, None), s1) => read_until_error budget' bufsz (acc ++ bs) s1
      end
  end.
End Source.

(** ** compress/gzip and compress/zlib

    What [NewReader] reads and checks before it returns is modelled from
    the library.  A gzip member starts with ten bytes (magic 1f 8b, method
    8, the flag byte, time, extra flags, system) and the fields that the
    flag byte announces: the extra field, the name, the comment and the
    checksum of the header.  A zlib stream starts with two bytes (method
    8, window at most 7, check bits) and, with FDICT set, the four-byte
    identifier of the preset dictionary, which has to be that of the
    dictionary given to [NewReader]: nil.  The decoding of the payload is a
    parameter. *)

Definition byte_Z (b : byte) : Z := Z.of_N (Byte.to_N b).

(* data[pos] *)
Definition byte_at (data : list byte) (pos : nat) : Z := byte_Z (nth pos data x00).

(* binary.LittleEndian.Uint16(data[pos:]) *)
Definition le_Uint16 (data : list byte) (pos : nat) : Z :=
  (byte_at data pos + 256 * byte_at data (S pos))%Z.

(* hash/crc32 with the IEEE polynomial *)
Definition crc32_shift (crc : Z) : Z :=
  if Z.testbit crc 0 then Z.lxor (Z.shiftr crc 1) 3988292384 else Z.shiftr crc 1.

Definition crc32_update (crc : Z) (b : byte) : Z :=
  Nat.iter 8 crc32_shift (Z.lxor crc (byte_Z b)).

Definition crc32_ChecksumIEEE (data : list byte) : Z :=
  Z.lxor (fold_left crc32_update data 4294967295%Z) 4294967295.

(* adler32.Checksum(nil), the identifier of the nil dictionary *)
Definition adler32_of_nil : Z := 1.

(** What the bytes read so far are as a header: complete ([header_ok n]:
    it takes the first [n] bytes), refused, or not yet complete. *)
Inductive header_result : Type :=
| header_ok (consumed : nat)
| header_bad (e : error)
| header_short.

(* one field after the other; a field answers the position behind it *)
Definition and_then (r : header_result) (k : nat -> header_result) : header_result :=
  match r with
  | header_ok pos => k pos
  | header_bad e => header_bad e
  | header_short => header_short
  end.

Definition flag_set (flg mask : Z) : bool := negb (Z.land flg mask =? 0)%Z.

(* FEXTRA: two bytes of length, then that many bytes *)
Definition gzip_extra (data : list byte) (pos : nat) : header_result :=
  if (length data <? pos + 2)%nat then header_short
  else
    let n := Z.to_nat (le_Uint16 data pos) in
    if (length data <? pos + 2 + n)%nat then header_short
    else header_ok (pos + 2 + n).

(* gzip's readString: bytes up to the first zero byte, which has to be
   among the first 512; [i] counts the bytes before [rest] *)
Fixpoint gzip_readString (rest : list byte) (i : nat) : header_result :=
  if (512 <=? i)%nat then header_bad gzip_ErrHeader
  else match rest with
       | [] => header_short
       | b :: rest' =>
           if (byte_Z b =? 0)%Z then header_ok (S i) else gzip_readString rest' (S i)
       end.

(* FNAME and FCOMMENT *)
Definition gzip_string (data : list byte) (pos : nat) : header_result :=
  and_then (gzip_readString (drop pos data) 0) (fun n => header_ok (pos + n)).

(* FHCRC: the low 16 bits of the CRC-32 of the header up to here *)
Definition gzip_hcrc (data : list byte) (pos : nat) : header_result :=
  if (length data <? pos + 2)%nat then header_short
  else if (le_Uint16 data pos =? crc32_ChecksumIEEE (take pos data) mod 65536)%Z
       then header_ok (pos + 2)
       else header_bad gzip_ErrHeader.

(* gzip: Reader.readHeader *)
Definition gzip_readHeader (data : list byte) : header_result :=
  if (length data <? 10)%nat then header_short
  else if negb ((byte_at data 0 =? 31)%Z && (byte_at data 1 =? 139)%Z
                && (byte_at data 2 =? 8)%Z)
  then header_bad gzip_ErrHeader
  else
    let flg := byte_at data 3 in
    and_then (if flag_set flg 4 then gzip_extra data 10 else header_ok 10) (fun p1 =>
    and_then (if flag_set flg 8 then gzip_string data p1 else header_ok p1) (fun p2 =>
    and_then (if flag_set flg 16 then gzip_string data p2 else header_ok p2) (fun p3 =>
    if flag_set flg 2 then gzip_hcrc data p3 else header_ok p3))).

(* zlib: the header as reader.Reset reads it, with a nil dictionary *)
Definition zlib_readHeader (data : list byte) : header_result :=
  if (length data <? 2)%nat then header_short
  else
    let cmf := byte_at data 0 in
    let flg := byte_at data 1 in
    let h := Z.lor (Z.shiftl cmf 8) flg in
    if negb (Z.land cmf 15 =? 8)%Z || (7 <? Z.shiftr cmf 4)%Z || negb (h mod 31 =? 0)%Z
    then header_bad zlib_ErrHeader
    else if flag_set flg 32 then
      if (length data <? 6)%nat then header_short
      else
        let checksum :=
          (byte_at data 2 * 16777216 + byte_at data 3 * 65536
           + byte_at data 4 * 256 + byte_at data 5)%Z in
        if (checksum =? adler32_of_nil)%Z then header_ok 6
        else header_bad zlib_ErrDictionary
    else header_ok 2.

Inductive Encoding : Type := Gzip | Deflate.

Definition parse_header (c : Encoding) : list byte -> header_result :=
  match c with Gzip => gzip_readHeader | Deflate => zlib_readHeader end.

(* the source ends with [e] while the header, of which [got] has arrived,
   is incomplete: io.ReadFull and gzip's noEOF turn io.EOF into
   io.ErrUnexpectedEOF, except that gzip hands on the io.EOF of a source
   that has nothing at all *)
Definition short_header_error (c : Encoding) (got : list byte) (e : error) : error :=
  if error_eqb_EOF e
  then match c, got with
       | Gzip, [] => io_EOF
       | _, _ => io_ErrUnexpectedEOF
       end
  else e.

(** The switch statement of loadContent, the same in both versions:
    [case "gzip"], [case "deflate"], [default]. *)
Definition encoding_of (value : string) : option Encoding :=
  if String.eqb value "gzip" then Some Gzip
  else if String.eqb value "deflate" then Some Deflate
  else None.

(** A JSON value, as far as the accessors are concerned. *)
#[warnings="-register-all"] Inductive JsonValue : Type :=
| JNull
| JBool (b : bool)
| JNumber (n : Z)
| JString (s : string)
| JArray (items : list JsonValue)
| JObject (fields : list (string * JsonValue)).

(** The parts of the libraries that are taken as given. *)
Record Library : Type := mkLibrary {
  (* what the decompressing reader makes of the bytes that follow the
     header when the source ends after them: the decoded bytes, and how
     the decoding ended ([None]: cleanly, the stream complete and its
     checksum right; io.ErrUnexpectedEOF: the bytes ran out first) *)
  inflate : Encoding -> list byte -> list byte * option error;
  (* go-simplejson: simplejson.NewJson(body), which unmarshals with a
     json.Decoder and so takes the first value of the document; Json of
     the earlier version and SimpleJSON of response.go call it *)
  json_Unmarshal : list byte -> JsonValue + error;
  (* encoding/json: json.Unmarshal(data, v), which takes the whole
     document; JSON of response.go calls it; the value is what v holds
     afterwards *)
  encoding_json_Unmarshal : list byte -> JsonValue + error
}.

Section Decompress.
Context {St : Type}.
Variable src_Read : nat -> St -> option (outcome (list byte * option error) * St).
Variable lib : Library.

(* the header is read through a bufio.Reader of 4096 bytes: the source
   is asked for more as long as what has arrived is not a whole header *)
Fixpoint read_header (budget : nat) (c : Encoding) (acc : list byte) (s : St)
  : option (outcome (list byte + error) * St) :=
  match budget with
  | O => None
  | S budget' =>
      match src_Read 4096 s with
      | None => None
      | Some (Panics m, s1) => Some (Panics m, s1)
      | Some (Returns (bs, e), s1) =>
          let acc' := acc ++ bs in
          match parse_header c acc' with
          | header_ok n => Some (Returns (inl (drop n acc')), s1)
          | header_bad err => Some (Returns (inr err), s1)
          | header_short =>
              match e with
              | Some e => Some (Returns (inr (short_header_error c acc' e)), s1)
              | None => read_header budget' c acc' s1
              end
          end
      end
  end.

(* gzip.NewReader / zlib.NewReader: [inl buffered] is a reader that
   holds the bytes it has read past the header *)
Definition NewReader (c : Encoding) (budget : nat) (s : St)
  : option (outcome (list byte + error) * St) :=
  read_header budget c [] s.

(* how a decompressing reader ends when its source ends with [e] after
   the bytes that [inflate] has judged: a zlib reader that has seen its
   whole stream asks the source for nothing more, a gzip reader looks for
   another member and meets [e]; a reader that runs out of bytes meets
   [e]; one that finds the bytes corrupt reports that *)
Definition inflate_status (c : Encoding) (status : option error) (e : error) : error :=
  match status with
  | None =>
      match c with
      | Deflate => io_EOF
      | Gzip => e
      end
  | Some err =>
      if error_eqb_UnexpectedEOF err && negb (error_eqb_EOF e) then e else err
  end.

(* reading a decompressing reader until it reports an error.  The reader
   is given all that the source has; what a reader would leave unread in
   the source is read by no method of response.go and drained by r.Close()
   in the earlier version *)
Definition inflate_until_error (c : Encoding) (buffered : list byte)
           (budget : nat) (s : St)
  : option (outcome (list byte * error) * St) :=
  match read_until_error src_Read budget 4096 [] s with
  | None => None
  | Some (Panics m, s1) => Some (Panics m, s1)
  | Some (Returns (rest, e), s1) =>
      let '(out, status) := inflate lib c (buffered ++ rest) in
      Some (Returns (out, inflate_status c status e), s1)
  end.
End Decompress.

(** ** The file system seen by os.Create and os.File.Write *)

Record FS : Type := mkFS {
  files : gmap string (list byte);
  read_only : gset string;          (* os.Create fails on these paths *)
  free_space : option nat           (* [Some n]: a Write stores at most n bytes *)
}.

Definition os_Create (path : string) (fs : FS) : option error * FS :=
  if decide (path ∈ read_only fs) then (Some (os_PathError path), fs)
  else (None, mkFS (<[path := []]> (files fs)) (read_only fs) (free_space fs)).

(* f.Write(data) on the file just created at [path] *)
Definition File_Write (path : string) (data : list byte) (fs : FS)
  : (nat * option error) * FS :=
  let old := default [] (files fs !! path) in
  match free_space fs with
  | Some n =>
      if (n <? length data)%nat
      then ((n, Some io_ErrShortWrite),
            mkFS (<[path := old ++ take n data]> (files fs)) (read_only fs) (Some 0%nat))
      else ((length data, None),
            mkFS (<[path := old ++ data]> (files fs)) (read_only fs)
                 (Some (n - length data)%nat))
  | None => ((length data, None),
             mkFS (<[path := old ++ data]> (files fs)) (read_only fs) None)
  end.

(** The body as a source for the loops above. *)
Definition body_Read (n : nat) (s : Stream)
  : option (outcome (list byte * option error) * Stream) :=
  let '(res, s') := Stream_Read n s in Some (Returns res, s').

(** [*http.Response], as far as the wrapper looks at it. *)
Module http.
Record Response : Type := mkResponse {
  Status : string;
  StatusCode : Z;
  Header : gmap string (list string);
  ContentLength : Z;
  Body : option Stream             (* io.ReadCloser; [None] is nil *)
}.

Definition with_Body (s : Stream) (h : Response) : Response :=
  mkResponse (Status h) (StatusCode h) (Header h) (ContentLength h) (Some s).
End http.

(** bytes.Buffer.Grow(n) on an empty buffer, for [n] above zero: a buffer
    whose capacity is below [n] asks for a slice of at least [n] bytes, and
    the runtime refuses a length above [maxAlloc] (two to the 48 on 64-bit
    Linux, where [int] has 64 bits); the buffer turns the refusal into a
    panic with bytes.ErrTooLarge.  A length that the runtime accepts is
    taken to be available, as for every other allocation of the program.
    The call changes the capacity of the buffer, which the model does not
    keep: it bears on the sizes of the reads that follow, not on the bytes
    read. *)
Definition maxAlloc : Z := 281474976710656.

Definition Buffer_Grow (n : Z) : outcome unit :=
  if (maxAlloc <? n)%Z then Panics "bytes.Buffer: too large" else Returns tt.

(** bytes.NewReader(b).Read(p) with [len(p) = n], on a fresh reader *)
Definition bytes_Reader_Read (b : list byte) (n : nat) : list byte * option error :=
  match b with
  | [] => ([], Some io_EOF)
  | _ :: _ => (take n b, None)
  end.

(** * response.go *)

Module Current.

Record Response : Type := mkResponse {
  embedded : http.Response;           (* the embedded *http.Response *)
  content : option (list byte)
}.

Definition with_Body (s : Stream) (r : Response) : Response :=
  mkResponse (http.with_Body s (embedded r)) (content r).

Definition with_content (c : option (list byte)) (r : Response) : Response :=
  mkResponse (embedded r) c.

Definition NewResponse (resp : http.Response) : Response :=
  mkResponse resp None.

(* r.Body *)
Definition stream (r : Response) : option Stream := http.Body (embedded r).

Definition Ok (r : Response) : bool :=
  (http.StatusCode (embedded r) <? 400)%Z && (http.StatusCode (embedded r) >=? 200)%Z.

(** What the variable [reader] of loadContent can hold. *)
Inductive ReadCloser : Type :=
| nil_ReadCloser                                  (* the nil interface *)
| nil_gzip_Reader                                 (* a nil *gzip.Reader in the interface *)
| body_ReadCloser                                 (* r.Body *)
| decompressor (c : Encoding) (buffered : list byte).

Section WithLibrary.
Variable lib : Library.

(* reader.Close(): the Close of gzip and zlib readers leaves the
   underlying reader open *)
Definition reader_Close (reader : ReadCloser) (r : Response)
  : outcome (option error) * Response :=
  match reader with
  | nil_ReadCloser | nil_gzip_Reader => (Panics nil_dereference, r)
  | body_ReadCloser =>
      match http.Body (embedded r) with
      | None => (Panics nil_dereference, r)
      | Some s => let '(e, s') := Stream_Close s in (Returns e, with_Body s' r)
      end
  | decompressor _ _ => (Returns None, r)
  end.

(* reader, err = gzip.NewReader(r.Body) and its zlib twin: what the two
   variables hold afterwards.  gzip.NewReader returns a nil *gzip.Reader
   with its error, zlib.NewReader a nil interface. *)
Definition new_decompressor (c : Encoding) (budget : nat) (r : Response)
  : option (ReadCloser * outcome (option error) * Response) :=
  match http.Body (embedded r) with
  | None => Some (nil_ReadCloser, Panics nil_dereference, r)
  | Some s =>
      match NewReader body_Read c budget s with
      | None => None
      | Some (Panics m, s1) => Some (nil_ReadCloser, Panics m, with_Body s1 r)
      | Some (Returns (inr e), s1) =>
          Some (match c with Gzip => nil_gzip_Reader | Deflate => nil_ReadCloser end,
                Returns (Some e), with_Body s1 r)
      | Some (Returns (inl buffered), s1) =>
          Some (decompressor c buffered, Returns None, with_Body s1 r)
      end
  end.

(* the switch on the Content-Encoding header *)
Definition select_reader (budget : nat) (r : Response)
  : option (ReadCloser * outcome (option error) * Response) :=
  match encoding_of (Header_Get (http.Header (embedded r)) "Content-Encoding") with
  | Some c => new_decompressor c budget r
  | None => Some (match http.Body (embedded r) with
                  | None => nil_ReadCloser
                  | Some _ => body_ReadCloser
                  end, Returns None, r)
  end.

(* ioutil.ReadAll(reader) *)
Definition ReadAll (reader : ReadCloser) (budget : nat) (r : Response)
  : option (outcome (option (list byte) * option error) * Response) :=
  let finish (res : option (outcome (list byte * error) * Stream)) :=
    match res with
    | None => None
    | Some (Panics m, s1) => Some (Panics m, with_Body s1 r)
    | Some (Returns (data, e), s1) =>
        Some (Returns (Some data, if error_eqb_EOF e then None else Some e),
              with_Body s1 r)
    end in
  match reader, http.Body (embedded r) with
  | body_ReadCloser, Some s => finish (read_until_error body_Read budget 512 [] s)
  | decompressor c buffered, Some s =>
      finish (inflate_until_error body_Read lib c buffered budget s)
  | _, _ => Some (Panics nil_dereference, r)
  end.

(* loadContent between the defer statement and the return *)
Definition loadContent_body (budget : nat) (r : Response)
  : option (ReadCloser * outcome (option (list byte) * option error) * Response) :=
  match select_reader budget r with
  | None => None
  | Some (reader, Panics m, r1) => Some (reader, Panics m, r1)
  | Some (reader, Returns (Some err), r1) => Some (reader, Returns (None, Some err), r1)
  | Some (reader, Returns None, r1) =>
      match ReadAll reader budget r1 with
      | None => None
      | Some (Panics m, r2) => Some (reader, Panics m, r2)
      | Some (Returns (data, Some err), r2) =>
          if negb (error_eqb_EOF err)
          then Some (reader, Returns (None, Some err), r2)
          else Some (reader, Returns (data, None), with_content data r2)
      | Some (Returns (data, None), r2) =>
          Some (reader, Returns (data, None), with_content data r2)
      end
  end.

Definition loadContent (budget : nat) (r : Response)
  : option (outcome (option (list byte) * option error) * Response) :=
  match content r with
  | Some c => Some (Returns (Some c, None), r)
  | None =>
      match loadContent_body budget r with
      | None => None
      | Some (reader, res, r1) =>
          (* the deferred reader.Close() *)
          match reader_Close reader r1 with
          | (Panics m, r2) => Some (Panics m, r2)
          | (Returns _, r2) => Some (res, r2)
          end
      end
  end.

(* Read(p) with [len(p) = n]; answers n as the length of the bytes *)
Definition Read (budget n : nat) (r : Response)
  : option (outcome (list byte * option error) * Response) :=
  match loadContent budget r with
  | None => None
  | Some (Panics m, r1) => Some (Panics m, r1)
  | Some (Returns (_, Some err), r1) => Some (Returns ([], Some err), r1)
  | Some (Returns (c, None), r1) => Some (Returns (bytes_Reader_Read (default [] c) n), r1)
  end.

(* io.Copy(ioutil.Discard, r) reads r with a buffer of 8192 bytes until
   r.Read reports an error *)
Definition Close (budget : nat) (r : Response)
  : option (outcome (option error) * Response) :=
  match read_until_error (Read budget) budget 8192 [] r with
  | None => None
  | Some (Panics m, r1) => Some (Panics m, r1)
  | Some (Returns (_, e), r1) =>
      if error_eqb_EOF e then
        match http.Body (embedded r1) with
        | None => Some (Returns None, r1)
        | Some s => let '(e', s') := Stream_Close s in Some (Returns e', with_Body s' r1)
        end
      else Some (Returns (Some e), r1)
  end.

Definition Text (budget : nat) (r : Response)
  : option (outcome (string * option error) * Response) :=
  match loadContent budget r with
  | None => None
  | Some (Panics m, r1) => Some (Panics m, r1)
  | Some (Returns (_, Some err), r1) => Some (Returns (EmptyString, Some err), r1)
  | Some (Returns (c, None), r1) =>
      Some (Returns (string_of_list_byte (default [] c), None), r1)
  end.

Definition Content (budget : nat) (r : Response)
  : option (outcome (option (list byte) * option error) * Response) :=
  match loadContent budget r with
  | None => None
  | Some (Panics m, r1) => Some (Panics m, r1)
  | Some (Returns (_, Some err), r1) => Some (Returns (None, Some err), r1)
  | Some (Returns (c, None), r1) => Some (Returns (c, None), r1)
  end.

(* simplejson.NewJson(content) *)
Definition parse (c : option (list byte)) : option JsonValue * option error :=
  match json_Unmarshal lib (default [] c) with
  | inl v => (Some v, None)
  | inr e => (None, Some e)
  end.

Definition SimpleJSON (budget : nat) (r : Response)
  : option (outcome (option JsonValue * option error) * Response) :=
  match loadContent budget r with
  | None => None
  | Some (Panics m, r1) => Some (Panics m, r1)
  | Some (Returns (_, Some err), r1) =>
      Some (Returns (None, Some (fmt_Errorf "Json error" err)), r1)
  | Some (Returns (c, None), r1) => Some (Returns (parse c), r1)
  end.

(* json.Unmarshal(content, v): what v holds afterwards, and the error *)
Definition unmarshal (c : option (list byte)) : option JsonValue * option error :=
  match encoding_json_Unmarshal lib (default [] c) with
  | inl v => (Some v, None)
  | inr e => (None, Some e)
  end.

(* JSON(v): the first component is what v holds afterwards *)
Definition JSON (budget : nat) (r : Response)
  : option (outcome (option JsonValue * option error) * Response) :=
  match loadContent budget r with
  | None => None
  | Some (Panics m, r1) => Some (Panics m, r1)
  | Some (Returns (_, Some err), r1) => Some (Returns (None, Some err), r1)
  | Some (Returns (c, None), r1) => Some (Returns (unmarshal c), r1)
  end.

Definition SaveContent (filename : string) (budget : nat) (w : Response * FS)
  : option (outcome (option error) * (Response * FS)) :=
  let '(r, fs) := w in
  match os_Create filename fs with
  | (Some err, fs1) => Some (Returns (Some err), (r, fs1))
  | (None, fs1) =>
      match loadContent budget r with
      | None => None
      | Some (Panics m, r1) => Some (Panics m, (r1, fs1))
      | Some (Returns (_, Some err), r1) => Some (Returns (Some err), (r1, fs1))
      | Some (Returns (c, None), r1) =>
          let '((_, werr), fs2) := File_Write filename (default [] c) fs1 in
          Some (Returns werr, (r1, fs2))
      end
  end.
End WithLibrary.

End Current.

(** * The earlier version of the wrapper *)

Module Legacy.

Record Response : Type := mkResponse {
  RawResponse : option http.Response;    (* [None] is the nil pointer *)
  Status : string;
  StatusCode : Z;
  Header : gmap string (list string);
  content : option (list byte);          (* *bytes.Buffer: its unread bytes; [None] is nil *)
  internalError : option error
}.

Definition with_Body (s : Stream) (r : Response) : Response :=
  mkResponse (http.with_Body s <$> RawResponse r) (Status r) (StatusCode r)
             (Header r) (content r) (internalError r).

Definition with_content (c : list byte) (r : Response) : Response :=
  mkResponse (RawResponse r) (Status r) (StatusCode r) (Header r) (Some c)
             (internalError r).

(* r.RawResponse.Body *)
Definition stream (r : Response) : option Stream := RawResponse r ≫= http.Body.

Definition with_internalError (e : error) (r : Response) : Response :=
  mkResponse (RawResponse r) (Status r) (StatusCode r) (Header r) (content r)
             (Some e).

Definition NewResponse (rawResp : option http.Response) (err : option error)
  : outcome (Response * option error) :=
  match err with
  | Some e =>
      Returns (mkResponse None EmptyString 0%Z ∅ None (Some e),
               Some (fmt_Errorf "NewResponse error" e))
  | None =>
      match rawResp with
      | None => Panics nil_dereference
      | Some raw =>
          Returns (mkResponse (Some raw) (http.Status raw) (http.StatusCode raw)
                              (http.Header raw) (Some []) None, None)
      end
  end.

Definition Ok (r : Response) : bool :=
  match internalError r with
  | Some _ => false
  | None => (StatusCode r <? 400)%Z && (StatusCode r >=? 200)%Z
  end.

(* Read(p) with [len(p) = n]: the count, the bytes put into p, the error *)
Definition Read (n : nat) (r : Response)
  : outcome (Z * list byte * option error) * Response :=
  match internalError r with
  | Some e => (Returns ((-1)%Z, [], Some e), r)
  | None =>
      match RawResponse r with
      | None => (Panics nil_dereference, r)
      | Some raw =>
          match http.Body raw with
          | None => (Panics nil_dereference, r)
          | Some s =>
              let '((bs, e), s') := Stream_Read n s in
              (Returns (Z.of_nat (length bs), bs, e), with_Body s' r)
          end
      end
  end.

(* r as the source of a reading loop; bytes.Buffer.ReadFrom panics on a
   negative count, the other loops add it up *)
Definition Read_source (strict : bool) (n : nat) (r : Response)
  : option (outcome (list byte * option error) * Response) :=
  match Read n r with
  | (Panics m, r1) => Some (Panics m, r1)
  | (Returns (cnt, bs, e), r1) =>
      if strict && (cnt <? 0)%Z
      then Some (Panics "bytes.Buffer: reader returned negative count from Read", r1)
      else Some (Returns (bs, e), r1)
  end.

Definition Body_Close (r : Response) : outcome (option error) * Response :=
  match RawResponse r with
  | None => (Panics nil_dereference, r)
  | Some raw =>
      match http.Body raw with
      | None => (Panics nil_dereference, r)
      | Some s => let '(e, s') := Stream_Close s in (Returns e, with_Body s' r)
      end
  end.

Definition Close (budget : nat) (r : Response)
  : option (outcome (option error) * Response) :=
  match internalError r with
  | Some e => Some (Returns (Some e), r)
  | None =>
      (* io.Copy(ioutil.Discard, r), its result dropped *)
      match read_until_error (Read_source false) budget 8192 [] r with
      | None => None
      | Some (Panics m, r1) => Some (Panics m, r1)
      | Some (Returns _, r1) =>
          let '(res, r2) := Body_Close r1 in Some (res, r2)
      end
  end.

(** What the variable [reader] of loadContent can hold. *)
Inductive ReadCloser : Type :=
| nil_ReadCloser
| nil_gzip_Reader
| self_ReadCloser                                 (* r *)
| decompressor (c : Encoding) (buffered : list byte).

Section WithLibrary.
Variable lib : Library.

Definition reader_Close (reader : ReadCloser) (budget : nat) (r : Response)
  : option (outcome (option error) * Response) :=
  match reader with
  | nil_ReadCloser | nil_gzip_Reader => Some (Panics nil_dereference, r)
  | self_ReadCloser => Close budget r
  | decompressor _ _ => Some (Returns None, r)
  end.

Definition new_decompressor (c : Encoding) (budget : nat) (r : Response)
  : option (ReadCloser * outcome (option error) * Response) :=
  match NewReader (Read_source false) c budget r with
  | None => None
  | Some (Panics m, r1) => Some (nil_ReadCloser, Panics m, r1)
  | Some (Returns (inr e), r1) =>
      Some (match c with Gzip => nil_gzip_Reader | Deflate => nil_ReadCloser end,
            Returns (Some e), r1)
  | Some (Returns (inl buffered), r1) =>
      Some (decompressor c buffered, Returns None, r1)
  end.

Definition select_reader (budget : nat) (r : Response)
  : option (ReadCloser * outcome (option error) * Response) :=
  match encoding_of (Header_Get (Header r) "Content-Encoding") with
  | Some c => new_decompressor c budget r
  | None => Some (self_ReadCloser, Returns None, r)
  end.

(* io.Copy(r.content, reader), that is r.content.ReadFrom(reader) *)
Definition copy_to_content (reader : ReadCloser) (budget : nat) (r : Response)
  : option (outcome (option error) * Response) :=
  let finish (res : option (outcome (list byte * error) * Response)) :=
    match res with
    | None => None
    | Some (Panics m, r1) => Some (Panics m, r1)
    | Some (Returns (data, e), r1) =>
        Some (Returns (if error_eqb_EOF e then None else Some e),
              with_content (default [] (content r1) ++ data) r1)
    end in
  match reader with
  | self_ReadCloser => finish (read_until_error (Read_source true) budget 512 [] r)
  | decompressor c buffered =>
      finish (inflate_until_error (Read_source false) lib c buffered budget r)
  | nil_ReadCloser | nil_gzip_Reader => Some (Panics nil_dereference, r)
  end.

(* loadContent between the defer statement and the return *)
Definition loadContent_body (budget : nat) (r : Response)
  : option (ReadCloser * outcome (option error) * Response) :=
  match select_reader budget r with
  | None => None
  | Some (reader, Panics m, r1) => Some (reader, Panics m, r1)
  | Some (reader, Returns (Some err), r1) => Some (reader, Returns (Some err), r1)
  | Some (reader, Returns None, r1) =>
      match copy_to_content reader budget r1 with
      | None => None
      | Some (Panics m, r2) => Some (reader, Panics m, r2)
      | Some (Returns (Some err), r2) =>
          if negb (error_eqb_EOF err)
          then Some (reader, Returns (Some err), r2)
          else Some (reader, Returns None, r2)
      | Some (Returns None, r2) => Some (reader, Returns None, r2)
      end
  end.

(* the deferred function: r.Close() and then reader.Close() *)
Definition loadContent_deferred (reader : ReadCloser) (budget : nat) (r : Response)
  : option (outcome unit * Response) :=
  match Close budget r with
  | None => None
  | Some (Panics m, r1) => Some (Panics m, r1)
  | Some (Returns _, r1) =>
      match reader_Close reader budget r1 with
      | None => None
      | Some (Panics m, r2) => Some (Panics m, r2)
      | Some (Returns _, r2) => Some (Returns tt, r2)
      end
  end.

Definition loadContent (budget : nat) (r : Response)
  : option (outcome (option error) * Response) :=
  match internalError r with
  | Some e => Some (Returns (Some e), r)
  | None =>
      match content r with
      | None => Some (Panics nil_dereference, r)
      | Some buf =>
          if negb (length buf =? 0)%nat then Some (Returns None, r)
          else
            match RawResponse r with
            | None => Some (Panics nil_dereference, r)
            | Some raw =>
                if (http.ContentLength raw =? 0)%Z then Some (Returns None, r)
                else
                  (* r.content.Grow(int(ContentLength)), before the defer
                     statement *)
                  match (if (0 <? http.ContentLength raw)%Z
                         then Buffer_Grow (http.ContentLength raw)
                         else Returns tt) with
                  | Panics m => Some (Panics m, r)
                  | Returns _ =>
                      match loadContent_body budget r with
                      | None => None
                      | Some (reader, res, r1) =>
                          match loadContent_deferred reader budget r1 with
                          | None => None
                          | Some (Panics m, r2) => Some (Panics m, r2)
                          | Some (Returns _, r2) => Some (res, r2)
                          end
                      end
                  end
            end
      end
  end.

(* what getContent returns: [None] is r itself, [Some buf] the buffer *)
Definition getContent (r : Response) : outcome (option (list byte)) :=
  match content r with
  | None => Panics nil_dereference
  | Some buf => if (length buf =? 0)%nat then Returns None else Returns (Some buf)
  end.

Definition Text (budget : nat) (r : Response)
  : option (outcome (string * option error) * Response) :=
  match loadContent budget r with
  | None => None
  | Some (Panics m, r1) => Some (Panics m, r1)
  | Some (Returns (Some err), r1) => Some (Returns (EmptyString, Some err), r1)
  | Some (Returns None, r1) =>
      Some (Returns (match content r1 with
                     | None => "<nil>"%string
                     | Some buf => string_of_list_byte buf
                     end, None), r1)
  end.

Definition Content (budget : nat) (r : Response)
  : option (outcome (option (list byte) * option error) * Response) :=
  match loadContent budget r with
  | None => None
  | Some (Panics m, r1) => Some (Panics m, r1)
  | Some (Returns (Some err), r1) => Some (Returns (None, Some err), r1)
  | Some (Returns None, r1) =>
      match content r1 with
      | None => Some (Panics nil_dereference, r1)
      | Some buf =>
          if (length buf =? 0)%nat then Some (Returns (None, None), r1)
          else Some (Returns (Some buf, None), r1)
      end
  end.

(* simplejson.NewJson(cnt) *)
Definition parse (c : option (list byte)) : option JsonValue * option error :=
  match json_Unmarshal lib (default [] c) with
  | inl v => (Some v, None)
  | inr e => (None, Some e)
  end.

Definition Json (budget : nat) (r : Response)
  : option (outcome (option JsonValue * option error) * Response) :=
  match internalError r with
  | Some e => Some (Returns (None, Some e), r)
  | None =>
      match Content budget r with
      | None => None
      | Some (Panics m, r1) => Some (Panics m, r1)
      | Some (Returns (_, Some err), r1) =>
          Some (Returns (None, Some (fmt_Errorf "Json error" err)),
                with_internalError err r1)
      | Some (Returns (cnt, None), r1) => Some (Returns (parse cnt), r1)
      end
  end.

(* io.Copy(f, r): read r with a buffer of 32768 bytes and write every
   chunk, until a write fails or r.Read reports an error *)
Fixpoint copy_to_file (budget : nat) (path : string) (w : Response * FS)
  : option (outcome (option error) * (Response * FS)) :=
  match budget with
  | O => None
  | S budget' =>
      let '(r, fs) := w in
      match Read 32768 r with
      | (Panics m, r1) => Some (Panics m, (r1, fs))
      | (Returns (cnt, bs, er), r1) =>
          let '((_, ew), fs1) :=
            if (0 <? cnt)%Z then File_Write path bs fs else ((0%nat, None), fs) in
          match ew with
          | Some e => Some (Returns (Some e), (r1, fs1))
          | None =>
              match er with
              | Some e =>
                  Some (Returns (if error_eqb_EOF e then None else Some e), (r1, fs1))
              | None => copy_to_file budget' path (r1, fs1)
              end
          end
      end
  end.

(* io.Copy(f, r.content), that is r.content.WriteTo(f) *)
Definition content_WriteTo (buf : list byte) (path : string) (w : Response * FS)
  : outcome (option error) * (Response * FS) :=
  let '(r, fs) := w in
  match buf with
  | [] => (Returns None, (with_content [] r, fs))
  | _ :: _ =>
      let '((m, e), fs1) := File_Write path buf fs in
      match e with
      | Some e' => (Returns (Some e'), (with_content (drop m buf) r, fs1))
      | None => (Returns None, (with_content [] r, fs1))
      end
  end.

Definition SaveContent (filename : string) (budget : nat) (w : Response * FS)
  : option (outcome (option error) * (Response * FS)) :=
  let '(r, fs) := w in
  match internalError r with
  | Some e => Some (Returns (Some e), (r, fs))
  | None =>
      match os_Create filename fs with
      | (Some err, fs1) =>
          Some (Returns (Some (fmt_Errorf "SaveContent error" err)), (r, fs1))
      | (None, fs1) =>
          let copied :=
            match getContent r with
            | Panics m => Some (Panics m, (r, fs1))
            | Returns None => copy_to_file budget filename (r, fs1)
            | Returns (Some buf) => Some (content_WriteTo buf filename (r, fs1))
            end in
          match copied with
          | None => None
          | Some (res, (r1, fs2)) =>
              (* the deferred f.Close() and r.Close() *)
              match Close budget r1 with
              | None => None
              | Some (Panics m, r2) => Some (Panics m, (r2, fs2))
              | Some (Returns _, r2) =>
                  match res with
                  | Panics m => Some (Panics m, (r2, fs2))
                  | Returns (Some err) =>
                      if negb (error_eqb_EOF err)
                      then Some (Returns (Some (fmt_Errorf "SaveContent error" err)),
                                 (r2, fs2))
                      else Some (Returns None, (r2, fs2))
                  | Returns None => Some (Returns None, (r2, fs2))
                  end
              end
          end
      end
  end.
End WithLibrary.

End Legacy.

(** * Concrete inputs

    A library instance to run the model on concrete inputs: the payload
    of a compressed body is stored as it is, and the JSON parsers know the
    three literal names.  The one of encoding/json takes a document that
    is a literal name; the one of go-simplejson takes the literal name that
    a document starts with, when white space or nothing follows it. *)

Definition literal_json (b : list byte) : JsonValue + error :=
  let s := string_of_list_byte b in
  if String.eqb s "null" then inl JNull
  else if String.eqb s "true" then inl (JBool true)
  else if String.eqb s "false" then inl (JBool false)
  else inr (json_SyntaxError "invalid character").

Definition is_space (b : byte) : bool :=
  existsb (Byte.eqb b) [x20; x09; x0a; x0d].

Definition first_literal_json (b : list byte) : JsonValue + error :=
  let ends_at (n : nat) :=
    match drop n b with
    | [] => true
    | next :: _ => is_space next
    end in
  if ends_at 4%nat then literal_json (take 4 b)
  else if ends_at 5%nat then literal_json (take 5 b)
  else inr (json_SyntaxError "invalid character").

Definition stored_library : Library :=
  mkLibrary (fun _ payload => (payload, None)) first_literal_json literal_json.

Definition bytes_of (s : string) : list byte := list_byte_of_string s.

Definition encoded_as (encoding : string) : gmap string (list string) :=
  Header_Add "content-encoding" encoding ∅.

(* a response as net/http hands it over: status, headers, length, body *)
Definition received (status : Z) (h : gmap string (list string)) (len : Z)
           (body : Stream) : http.Response :=
  http.mkResponse "" status h len (Some body).

(* the response that NewResponse(raw, nil) of the earlier version returns *)
Definition legacy_of (raw : http.Response) : Legacy.Response :=
  Legacy.mkResponse (Some raw) (http.Status raw) (http.StatusCode raw)
                    (http.Header raw) (Some []) None.

(* a body that the peer sends in full *)
Definition plain (status : Z) (body : string) : http.Response :=
  received status ∅ (Z.of_nat (String.length body)) (open_stream (bytes_of body)).

(* an empty body of undeclared length (ContentLength -1) *)
Definition empty_unknown_length : http.Response :=
  received 200 ∅ (-1) (open_stream []).

(* a body that is announced as compressed and is not *)
Definition not_compressed : list byte := bytes_of "plain text, not compressed".

Definition mislabelled (encoding : string) : http.Response :=
  received 200 (encoded_as encoding) 26 (open_stream not_compressed).

(* a gzip member: the ten-byte header and a payload *)
Definition gzip_header : list byte :=
  [x1f; x8b; x08; x00; x00; x00; x00; x00; x00; x03].

Definition gzip_member : list byte := gzip_header ++ bytes_of "AB".

Definition gzipped : http.Response :=
  received 200 (encoded_as "gzip") 12 (open_stream gzip_member).

(* a zlib stream that names the nil dictionary: the two-byte header with
   FDICT set, the identifier 1, and a payload *)
Definition zlib_stream_with_dictionary : list byte :=
  [x78; x20; x00; x00; x00; x01] ++ bytes_of "AB".

Definition deflated_with_dictionary : http.Response :=
  received 200 (encoded_as "deflate") 8 (open_stream zlib_stream_with_dictionary).

(* a zlib stream that names another dictionary *)
Definition deflated_with_other_dictionary : http.Response :=
  received 200 (encoded_as "deflate") 8
           (open_stream ([x78; x20; x00; x00; x00; x02] ++ bytes_of "AB")).

(* a gzip member whose flag byte announces a header checksum, with the
   checksum 0 where 30631 is due *)
Definition gzipped_with_wrong_checksum : http.Response :=
  received 200 (encoded_as "gzip") 14
           (open_stream ([x1f; x8b; x08; x02; x00; x00; x00; x00; x00; x03; x00; x00]
                         ++ bytes_of "AB")).

(* the same member under a header value in capitals *)
Definition gzipped_capitals : http.Response :=
  received 200 (encoded_as "GZIP") 12 (open_stream gzip_member).

(* two bytes arrive, then the connection is reset *)
Definition reset_by_peer : error := net_Error "connection reset by peer".

Definition interrupted : http.Response :=
  received 200 ∅ (-1) (mkStream (bytes_of "ab") (Some reset_by_peer) false 0 0).

(* the connection is reset before any byte arrives *)
Definition interrupted_at_once : http.Response :=
  received 200 ∅ (-1) (mkStream [] (Some reset_by_peer) false 0 0).

Definition empty_disk : FS := mkFS ∅ ∅ None.

(* the state a call leaves behind *)
Definition state_after {A St : Type} (res : option (outcome A * St)) (s0 : St) : St :=
  match res with
  | Some (_, s) => s
  | None => s0
  end.

(* a response of status 200 in the earlier version whose body was reset
   before the first byte, after Content() and after Json() *)
Definition after_failed_Content : Legacy.Response :=
  state_after (Legacy.Content stored_library 2 (legacy_of interrupted_at_once))
              (legacy_of interrupted_at_once).

Definition after_failed_Json : Legacy.Response :=
  state_after (Legacy.Json stored_library 2 (legacy_of interrupted_at_once))
              (legacy_of interrupted_at_once).

(** ** The dispatch in the words of the specification

    "inspect the Content-Encoding header (case-insensitive exact match)":
    the value is compared with gzip and deflate without regard to case. *)

Fixpoint lower_case (s : string) : string :=
  match s with
  | EmptyString => EmptyString
  | String c rest => String (to_lower c) (lower_case rest)
  end.

Definition spec_encoding_of (value : string) : option Encoding :=
  if String.eqb (lower_case value) "gzip" then Some Gzip
  else if String.eqb (lower_case value) "deflate" then Some Deflate
  else None.

(** ** More concrete inputs *)

(* the one-byte response of response.go, before and after Content() *)
Definition fresh_a : Current.Response := Current.NewResponse (plain 200 "a").

Definition loaded_a : Current.Response :=
  state_after (Current.Content stored_library 2 fresh_a) fresh_a.


(* a body of two JSON values, before and after Content() *)
Definition fresh_two : Current.Response := Current.NewResponse (plain 200 "true false").

Definition loaded_two : Current.Response :=
  state_after (Current.Content stored_library 2 fresh_two) fresh_two.

(* a disk that holds an older file at /tmp/x, and one where /tmp/x cannot
   be created *)
Definition disk_with_old_file : FS :=
  mkFS {[ "/tmp/x"%string := bytes_of "old" ]} ∅ None.

Definition disk_without_access : FS :=
  mkFS {[ "/tmp/x"%string := bytes_of "old" ]} {[ "/tmp/x"%string ]} None.

(* what an accessor leaves unchanged in the embedded response *)
Definition metadata (h : http.Response) : string * Z * gmap string (list string) * Z :=
  (http.Status h, http.StatusCode h, http.Header h, http.ContentLength h).

(* the earlier version: the one-byte response and the gzip member after
   Content() *)
Definition legacy_loaded_a : Legacy.Response :=
  state_after (Legacy.Content stored_library 2 (legacy_of (plain 200 "a")))
              (legacy_of (plain 200 "a")).

(* the earlier version: a declared length of zero *)
Definition declared_empty : http.Response :=
  received 200 ∅ 0 (open_stream (bytes_of "ignored")).

(* the earlier version: the one-byte body under the largest declared
   length that there is *)
Definition declared_too_large : http.Response :=
  received 200 ∅ 9223372036854775807 (open_stream (bytes_of "a")).

(* the earlier version: what no method but Json changes *)
Definition fixed_part (r : Legacy.Response)
  : string * Z * gmap string (list string) * option error :=
  (Legacy.Status r, Legacy.StatusCode r, Legacy.Header r, Legacy.internalError r).

(** * Properties *)

(* evaluation of the model on a concrete input *)
Ltac run := vm_compute; reflexivity.

Lemma legacy_of_NewResponse raw :
  Legacy.NewResponse (Some raw) None = Returns (legacy_of raw, None).
Proof. reflexivity. Qed.

(** ** Streams and loops *)

Lemma read_until_error_continue {St : Type}
      (rd : nat -> St -> option (outcome (list byte * option error) * St))
      budget bufsz acc s bs s1 :
  rd bufsz s = Some (Returns (bs, None), s1) ->
  read_until_error rd (S budget) bufsz acc s =
  read_until_error rd budget bufsz (acc ++ bs) s1.
Proof. intros H. cbn [read_until_error]. rewrite H. reflexivity. Qed.

Lemma read_until_error_stop {St : Type}
      (rd : nat -> St -> option (outcome (list byte * option error) * St))
      budget bufsz acc s bs e s1 :
  rd bufsz s = Some (Returns (bs, Some e), s1) ->
  read_until_error rd (S budget) bufsz acc s = Some (Returns (acc ++ bs, e), s1).
Proof. intros H. cbn [read_until_error]. rewrite H. reflexivity. Qed.

Lemma Stream_Read_closed n s :
  closed s = true ->
  Stream_Read n s =
  (([], Some http_errReadOnClosedResBody),
   mkStream (pending s) (failure s) true (S (reads s)) (closes s)).
Proof. unfold Stream_Read. intros ->. reflexivity. Qed.

Lemma Stream_Read_end n s :
  closed s = false -> pending s = [] ->
  Stream_Read n s =
  (([], Some (default io_EOF (failure s))),
   mkStream [] (failure s) false (S (reads s)) (closes s)).
Proof. unfold Stream_Read. intros -> ->. reflexivity. Qed.

Lemma Stream_Read_chunk n s x xs :
  closed s = false -> pending s = x :: xs ->
  Stream_Read n s =
  ((take n (x :: xs), None),
   mkStream (drop n (x :: xs)) (failure s) false (S (reads s)) (closes s)).
Proof. unfold Stream_Read. intros -> ->. reflexivity. Qed.

Lemma body_Read_eq n s :
  body_Read n s = Some (Returns (Stream_Read n s).1, (Stream_Read n s).2).
Proof. unfold body_Read. destruct (Stream_Read n s). reflexivity. Qed.

(** An open body is read to its end within one iteration more than it
    holds bytes. *)
Lemma body_read_until_error budget bufsz acc s :
  closed s = false -> (0 < bufsz)%nat -> (length (pending s) < budget)%nat ->
  exists k,
    read_until_error body_Read budget bufsz acc s =
    Some (Returns (acc ++ pending s, default io_EOF (failure s)),
          mkStream [] (failure s) false (reads s + S k) (closes s)).
Proof.
  intros Hopen Hbuf. revert acc s Hopen.
  induction budget as [|budget IH]; intros acc s Hopen Hlen; [lia|].
  cbn [read_until_error]. rewrite body_Read_eq.
  destruct (pending s) as [|x xs] eqn:Hp.
  - rewrite (Stream_Read_end _ _ Hopen Hp). cbn [fst snd].
    exists 0%nat. rewrite app_nil_r, Nat.add_1_r. reflexivity.
  - rewrite (Stream_Read_chunk _ _ _ _ Hopen Hp). cbn [fst snd].
    set (s1 := mkStream (drop bufsz (x :: xs)) (failure s) false (S (reads s)) (closes s)).
    destruct (IH (acc ++ take bufsz (x :: xs)) s1 eq_refl) as [k Hk].
    { cbn [pending s1]. rewrite length_drop. cbn [length] in *. lia. }
    exists (S k). rewrite Hk. cbn [pending failure reads closes s1].
    rewrite <- app_assoc, take_drop.
    replace (S (reads s) + S k)%nat with (reads s + S (S k))%nat by lia.
    reflexivity.
Qed.

Lemma closed_read_until_error budget bufsz acc s :
  closed s = true ->
  read_until_error body_Read (S budget) bufsz acc s =
  Some (Returns (acc, http_errReadOnClosedResBody),
        mkStream (pending s) (failure s) true (S (reads s)) (closes s)).
Proof.
  intros Hc. cbn [read_until_error].
  rewrite body_Read_eq, (Stream_Read_closed _ _ Hc). cbn [fst snd].
  rewrite app_nil_r. reflexivity.
Qed.

(** ** response.go: the cache *)

Section CurrentCache.
Import Current.
Variable lib : Library.

Lemma Current_reader_Close_content reader r res r' :
  reader_Close reader r = (res, r') -> content r' = content r.
Proof.
  unfold reader_Close. intros H.
  repeat case_match; simplify_eq; reflexivity.
Qed.

Lemma Current_ReadAll_returns reader n r c e r' :
  ReadAll lib reader n r = Some (Returns (c, e), r') ->
  (exists data, c = Some data) /\ content r' = content r.
Proof.
  unfold ReadAll. intros H.
  repeat case_match; simplify_eq; eauto.
Qed.

Lemma Current_loadContent_cached n r c :
  content r = Some c -> loadContent lib n r = Some (Returns (Some c, None), r).
Proof. unfold loadContent. intros ->. reflexivity. Qed.

Lemma Current_loadContent_body_ok n r reader c r' :
  loadContent_body lib n r = Some (reader, Returns (c, None), r') ->
  exists data, c = Some data /\ content r' = Some data.
Proof.
  unfold loadContent_body. intros H.
  repeat case_match; simplify_eq;
    match goal with
    | H : ReadAll _ _ _ _ = _ |- _ =>
        apply Current_ReadAll_returns in H as [[data ->] _]
    end; eauto.
Qed.

(* a call that succeeds leaves its result in the cache, and the result
   is not nil *)
Lemma Current_loadContent_ok n r c r' :
  loadContent lib n r = Some (Returns (c, None), r') ->
  exists data, c = Some data /\ content r' = Some data.
Proof.
  unfold loadContent. intros H.
  destruct (content r) as [c0|] eqn:Hc; [simplify_eq; eauto|].
  destruct (loadContent_body lib n r) as [[[reader res] r1]|] eqn:Hb; [|done].
  destruct (reader_Close reader r1) as [[e|m] r2] eqn:Hcl; simplify_eq.
  apply Current_loadContent_body_ok in Hb as (data & -> & Hd).
  apply Current_reader_Close_content in Hcl. exists data. split; [done|congruence].
Qed.

Lemma Current_select_reader_content n r reader res r' :
  select_reader n r = Some (reader, res, r') -> content r' = content r.
Proof.
  unfold select_reader, new_decompressor. intros H.
  repeat case_match; simplify_eq; reflexivity.
Qed.

(* a call that returns an error had no cache and leaves none *)
Lemma Current_loadContent_error n r c e r' :
  loadContent lib n r = Some (Returns (c, Some e), r') ->
  c = None /\ content r = None /\ content r' = None.
Proof.
  unfold loadContent. intros H.
  destruct (content r) as [c0|] eqn:Hc; [simplify_eq|].
  destruct (loadContent_body lib n r) as [[[reader res] r1]|] eqn:Hb; [|done].
  destruct (reader_Close reader r1) as [[e0|m] r2] eqn:Hcl; simplify_eq.
  apply Current_reader_Close_content in Hcl. rewrite Hcl.
  unfold loadContent_body in Hb.
  destruct (select_reader n r) as [[[rd [[err|]|m]] r0]|] eqn:Hsel; simplify_eq.
  - apply Current_select_reader_content in Hsel. split; [done|]. split; [done|]. congruence.
  - apply Current_select_reader_content in Hsel.
    destruct (ReadAll lib rd n r0) as [[[[data [err|]]|m] r3]|] eqn:Hra; simplify_eq.
    destruct (negb (error_eqb_EOF err)); simplify_eq.
    apply Current_ReadAll_returns in Hra as [_ Hra]. split; [done|]. split; [done|]. congruence.
Qed.

Lemma Current_Content_loadContent n r :
  Content lib n r =
  match loadContent lib n r with
  | Some (Returns (_, Some err), r1) => Some (Returns (None, Some err), r1)
  | other => other
  end.
Proof. unfold Content. repeat case_match; simplify_eq; reflexivity. Qed.

Lemma Current_Content_ok n r c r' :
  Content lib n r = Some (Returns (c, None), r') ->
  exists data, c = Some data /\ content r' = Some data.
Proof.
  rewrite Current_Content_loadContent. intros H.
  apply (Current_loadContent_ok n r). repeat case_match; simplify_eq; done.
Qed.

Lemma Current_Content_error n r c e r' :
  Content lib n r = Some (Returns (c, Some e), r') ->
  c = None /\ content r = None /\ content r' = None.
Proof.
  rewrite Current_Content_loadContent. intros H.
  destruct (loadContent lib n r) as [[[[c0 [e0|]]|m] r0]|] eqn:Hl; simplify_eq.
  apply Current_loadContent_error in Hl as (_ & H1 & H2). done.
Qed.

(* once the cache is filled every accessor answers from it and leaves
   the response, its stream included, as it is *)
Lemma Current_served_from_cache n r data :
  content r = Some data ->
  Content lib n r = Some (Returns (Some data, None), r) /\
  Text lib n r = Some (Returns (string_of_list_byte data, None), r) /\
  JSON lib n r = Some (Returns (unmarshal lib (Some data)), r) /\
  SimpleJSON lib n r = Some (Returns (parse lib (Some data)), r).
Proof.
  intros Hc. unfold Content, Text, JSON, SimpleJSON.
  rewrite (Current_loadContent_cached n r data Hc). done.
Qed.

Lemma Current_Read_cached inner n r data :
  content r = Some data ->
  Read lib inner n r = Some (Returns (bytes_Reader_Read data n), r).
Proof.
  intros Hc. unfold Read. rewrite (Current_loadContent_cached inner r data Hc).
  reflexivity.
Qed.

(* Read starts at the first byte of the cache on every call: a reader
   of r never sees the end of a cache that is not empty *)
Lemma Current_discard_never_ends inner r b bs :
  content r = Some (b :: bs) ->
  forall budget acc, read_until_error (Read lib inner) budget 8192 acc r = None.
Proof.
  intros Hc. induction budget as [|budget IH]; intros acc; [reflexivity|].
  cbn [read_until_error]. rewrite (Current_Read_cached inner 8192 r _ Hc).
  cbn [bytes_Reader_Read]. apply IH.
Qed.

End CurrentCache.

(** C4 (response.go). Content() on a response whose body is the single
    byte "a" returns within two iterations, but Close on it does not
    return, whatever the number of iterations it is given: Read serves the
    cache from its first byte on every call of the loop of io.Copy and
    never reports io.EOF. *)
Theorem Current_Close_never_returns (lib : Library) (budget : nat) :
  (exists r', Current.Content lib 2 (Current.NewResponse (plain 200 "a")) =
              Some (Returns (Some (bytes_of "a"), None), r')) /\
  Current.Close lib budget (Current.NewResponse (plain 200 "a")) = None.
Proof.
  split; [eexists; run|].
  destruct budget as [|[|n]]; [reflexivity|reflexivity|].
  assert (exists r',
    Current.Read lib (S (S n)) 8192 (Current.NewResponse (plain 200 "a")) =
      Some (Returns (bytes_of "a", None), r') /\
    Current.content r' = Some (bytes_of "a")) as (r' & Hread & Hc).
  { eexists. split; vm_compute; reflexivity. }
  unfold Current.Close.
  rewrite (read_until_error_continue _ _ _ _ _ _ _ Hread).
  rewrite (Current_discard_never_ends lib (S (S n)) r' _ _ Hc). reflexivity.
Qed.

(** C1 (earlier version). An empty body of undeclared length is not
    remembered: the first Content() reads and closes the stream and returns
    (nil, nil); the buffer is still empty, so the second Content() on the
    same object goes to the stream again (its read counter grows from 3 to
    6) and returns the error of reading a closed body. *)
Theorem Legacy_empty_body_is_read_again (lib : Library) (n : nat) :
  exists r1 r2,
    Legacy.Content lib (S n) (legacy_of empty_unknown_length) =
      Some (Returns (None, None), r1) /\
    Legacy.content r1 = Some [] /\
    reads <$> Legacy.stream r1 = Some 3%nat /\
    Legacy.Content lib (S n) r1 =
      Some (Returns (None, Some http_errReadOnClosedResBody), r2) /\
    reads <$> Legacy.stream r2 = Some 6%nat.
Proof. do 2 eexists. do 4 (split; [run|]). run. Qed.

(** C3 (both versions). When gzip.NewReader or zlib.NewReader rejects the
    body, the deferred reader.Close() is called on a nil reader and
    loadContent panics instead of returning the error; in response.go the
    body is left open besides, as it is after a gzip body has been decoded
    with success. *)
Theorem setup_failure_panics (lib : Library) (n : nat) :
  (exists r',
      Current.loadContent lib (S n) (Current.NewResponse (mislabelled "gzip")) =
        Some (Panics nil_dereference, r') /\
      closed <$> Current.stream r' = Some false) /\
  (exists r',
      Current.loadContent lib (S n) (Current.NewResponse (mislabelled "deflate")) =
        Some (Panics nil_dereference, r') /\
      closed <$> Current.stream r' = Some false) /\
  (exists r',
      Legacy.loadContent lib (S n) (legacy_of (mislabelled "gzip")) =
        Some (Panics nil_dereference, r')) /\
  (exists r',
      Legacy.loadContent lib (S n) (legacy_of (mislabelled "deflate")) =
        Some (Panics nil_dereference, r')) /\
  (exists r',
      Current.loadContent stored_library (S (S n)) (Current.NewResponse gzipped) =
        Some (Returns (Some (bytes_of "AB"), None), r') /\
      closed <$> Current.stream r' = Some false).
Proof.
  split; [eexists; split; run|].
  split; [eexists; split; run|].
  split; [eexists; run|].
  split; [eexists; run|].
  eexists; split; run.
Qed.

(** ** The earlier version: the recorded error *)

Section LegacyGuard.
Import Legacy.
Variable lib : Library.

(* every method starts by looking at internalError *)
Lemma Legacy_guard r e :
  internalError r = Some e ->
  Ok r = false /\
  (forall n, Read n r = (Returns ((-1)%Z, [], Some e), r)) /\
  (forall n, Close n r = Some (Returns (Some e), r)) /\
  (forall n, loadContent lib n r = Some (Returns (Some e), r)) /\
  (forall n, Content lib n r = Some (Returns (None, Some e), r)) /\
  (forall n, Text lib n r = Some (Returns (EmptyString, Some e), r)) /\
  (forall n, Json lib n r = Some (Returns (None, Some e), r)) /\
  (forall path n fs,
      SaveContent path n (r, fs) = Some (Returns (Some e), (r, fs))).
Proof.
  intros He.
  unfold Ok, Read, Close, Content, Text, Json, SaveContent, loadContent.
  rewrite He. done.
Qed.

(* Json is the one method that records an error *)
Lemma Legacy_Json_records n r c err r1 :
  internalError r = None ->
  Content lib n r = Some (Returns (c, Some err), r1) ->
  Json lib n r =
    Some (Returns (None, Some (fmt_Errorf "Json error" err)),
          with_internalError err r1).
Proof. intros He Hc. unfold Json. rewrite He, Hc. reflexivity. Qed.
End LegacyGuard.

(** C2, as stated, fails in response.go: there is no field for an error.
    On a body that is reset after two bytes the first Content() returns
    the reset, the second reads the (now closed) body again and returns a
    different error. *)
Lemma failed_load_is_attempted_again :
  ~ (forall (r r1 : Current.Response) (e : error),
        Current.Content stored_library 3 r = Some (Returns (None, Some e), r1) ->
        Current.Content stored_library 3 r1 = Some (Returns (None, Some e), r1)).
Proof.
  intros H.
  pose (r0 := Current.NewResponse interrupted).
  pose proof (H r0 (state_after (Current.Content stored_library 3 r0) r0)
                reset_by_peer) as H0.
  vm_compute in H0. specialize (H0 eq_refl). discriminate H0.
Qed.

(* the earlier version after a failed Content(): the two bytes that had
   arrived are in the buffer, and the next Content() returns them as the
   body *)
Lemma Legacy_partial_body_is_served (lib : Library) (n : nat) :
  exists r1 r2,
    Legacy.Content lib (S (S n)) (legacy_of interrupted) =
      Some (Returns (None, Some reset_by_peer), r1) /\
    Legacy.internalError r1 = None /\
    Legacy.Content lib (S (S n)) r1 = Some (Returns (Some (bytes_of "ab"), None), r2).
Proof. do 2 eexists. do 2 (split; [run|]). run. Qed.

(** C2, amended. response.go records no failure: a loadContent that
    returns an error returns no bytes and leaves the cache nil, as it was,
    so that the next call decodes again.  In the earlier version, when
    Content() fails inside Json(), Json() records the error in
    internalError; from then on Content, Text, Json and SaveContent return
    exactly the recorded error and leave the response, its stream and the
    file system as they are. *)
Theorem recorded_error_is_final (lib : Library) (n : nat) :
  (forall (r r' : Current.Response) c e,
      Current.loadContent lib n r = Some (Returns (c, Some e), r') ->
      c = None /\ Current.content r = None /\ Current.content r' = None) /\
  (forall (r r1 : Legacy.Response) c err,
      Legacy.internalError r = None ->
      Legacy.Content lib n r = Some (Returns (c, Some err), r1) ->
      Legacy.Json lib n r =
        Some (Returns (None, Some (fmt_Errorf "Json error" err)),
              Legacy.with_internalError err r1) /\
      forall m path fs,
        Legacy.Content lib m (Legacy.with_internalError err r1) =
          Some (Returns (None, Some err), Legacy.with_internalError err r1) /\
        Legacy.Text lib m (Legacy.with_internalError err r1) =
          Some (Returns (EmptyString, Some err), Legacy.with_internalError err r1) /\
        Legacy.Json lib m (Legacy.with_internalError err r1) =
          Some (Returns (None, Some err), Legacy.with_internalError err r1) /\
        Legacy.SaveContent path m (Legacy.with_internalError err r1, fs) =
          Some (Returns (Some err), (Legacy.with_internalError err r1, fs))).
Proof.
  split; [intros r r' c e; apply Current_loadContent_error|].
  intros r r1 c err He Hc.
  split; [exact (Legacy_Json_records lib n r c err r1 He Hc)|].
  intros m path fs.
  destruct (Legacy_guard lib (Legacy.with_internalError err r1) err eq_refl)
    as (_ & _ & _ & _ & HC & HT & HJ & HS).
  auto.
Qed.

Lemma recorded_error_is_final_witness :
  Current.content
    (state_after (Current.loadContent stored_library 3 (Current.NewResponse interrupted))
                 (Current.NewResponse interrupted)) = None /\
  Legacy.Json stored_library 2 (legacy_of interrupted_at_once) =
    Some (Returns (None, Some (fmt_Errorf "Json error" reset_by_peer)),
          after_failed_Json) /\
  Legacy.Content stored_library 7 after_failed_Json =
    Some (Returns (None, Some reset_by_peer), after_failed_Json).
Proof.
  destruct (recorded_error_is_final stored_library 3) as [Hcur _].
  destruct (recorded_error_is_final stored_library 2) as [_ Hleg].
  split.
  - refine (proj2 (proj2 (Hcur (Current.NewResponse interrupted) _ None reset_by_peer _))).
    vm_compute; reflexivity.
  - assert (He : Legacy.internalError (legacy_of interrupted_at_once) = None)
      by reflexivity.
    assert (Hc : Legacy.Content stored_library 2 (legacy_of interrupted_at_once) =
                 Some (Returns (None, Some reset_by_peer), after_failed_Content))
      by (vm_compute; reflexivity).
    assert (Hs : Legacy.with_internalError reset_by_peer after_failed_Content =
                 after_failed_Json) by (vm_compute; reflexivity).
    destruct (Hleg _ _ None reset_by_peer He Hc) as [HJ Hall].
    rewrite Hs in HJ, Hall.
    split; [exact HJ|]. exact (proj1 (Hall 7%nat EmptyString empty_disk)).
Defined.

(** ** Ok *)

(** C9, as stated, fails in the earlier version: after Json() has recorded
    the failure of a response of status 200, Ok() is false. *)
Lemma Ok_false_with_status_200 :
  ~ (forall r : Legacy.Response,
        Legacy.Ok r = true <-> (200 <= Legacy.StatusCode r < 400)%Z).
Proof.
  intros H. destruct (H after_failed_Json) as [_ H1].
  assert (Hs : Legacy.StatusCode after_failed_Json = 200%Z) by (vm_compute; reflexivity).
  assert (Hok : Legacy.Ok after_failed_Json = false) by (vm_compute; reflexivity).
  rewrite Hs, Hok in H1. discriminate H1. lia.
Qed.

(** C9, amended. In response.go Ok() is true exactly for a status code in
    [200, 400); in the earlier version it is true exactly when no internal
    error is recorded and the status code is in [200, 400).  Ok() is a
    function of the status code (and of internalError) alone: it does not
    depend on the stream or on the cache, and it returns nothing but the
    boolean.  199, 400 and 500 give false, 200 and 399 true. *)
Theorem Ok_characterised :
  (forall r : Current.Response,
      Current.Ok r = true <-> (200 <= http.StatusCode (Current.embedded r) < 400)%Z) /\
  (forall r : Legacy.Response,
      Legacy.Ok r = true <->
      Legacy.internalError r = None /\ (200 <= Legacy.StatusCode r < 400)%Z) /\
  (forall (r : Current.Response) s c,
      Current.Ok (Current.with_Body s r) = Current.Ok r /\
      Current.Ok (Current.with_content c r) = Current.Ok r) /\
  (forall (r : Legacy.Response) s c,
      Legacy.Ok (Legacy.with_Body s r) = Legacy.Ok r /\
      Legacy.Ok (Legacy.with_content c r) = Legacy.Ok r) /\
  map (fun status => Current.Ok (Current.NewResponse (plain status "")))
      [199; 200; 399; 400; 500]%Z = [false; true; true; false; false] /\
  map (fun status => Legacy.Ok (legacy_of (plain status "")))
      [199; 200; 399; 400; 500]%Z = [false; true; true; false; false].
Proof.
  split; [|split; [|split; [|split; [|split]]]].
  - intros r. unfold Current.Ok. rewrite andb_true_iff, Z.ltb_lt, Z.geb_le. lia.
  - intros r. unfold Legacy.Ok. destruct (Legacy.internalError r) as [e|].
    + split; [discriminate|]. intros [He _]. discriminate He.
    + rewrite andb_true_iff, Z.ltb_lt, Z.geb_le. split; [intros; split; [done|lia]|lia].
  - intros r s c. split; reflexivity.
  - intros r s c. split; reflexivity.
  - reflexivity.
  - reflexivity.
Qed.

(** ** A response made from a transport error *)

(** C10 (earlier version). NewResponse with an error records it; on the
    response it returns, and on any response with a recorded error whatever
    its status code, Ok() is false, and Read, Close, Content, Text, Json and
    SaveContent return the recorded error and change nothing. *)
Theorem Legacy_transport_error (lib : Library) (rawResp : option http.Response)
        (err : error) :
  exists r,
    Legacy.NewResponse rawResp (Some err) =
      Returns (r, Some (fmt_Errorf "NewResponse error" err)) /\
    Legacy.internalError r = Some err /\
    Legacy.Ok r = false /\
    (forall raw st status h c,
        Legacy.Ok (Legacy.mkResponse raw st status h c (Some err)) = false) /\
    (forall n, Legacy.Read n r = (Returns ((-1)%Z, [], Some err), r)) /\
    (forall n, Legacy.Close n r = Some (Returns (Some err), r)) /\
    (forall n, Legacy.Content lib n r = Some (Returns (None, Some err), r)) /\
    (forall n, Legacy.Text lib n r = Some (Returns (EmptyString, Some err), r)) /\
    (forall n, Legacy.Json lib n r = Some (Returns (None, Some err), r)) /\
    (forall path n fs,
        Legacy.SaveContent path n (r, fs) = Some (Returns (Some err), (r, fs))).
Proof.
  eexists. split; [reflexivity|]. split; [reflexivity|].
  match goal with
  | |- Legacy.Ok ?r = _ /\ _ =>
      destruct (Legacy_guard lib r err eq_refl)
        as (HOk & HR & HCl & _ & HC & HT & HJ & HS)
  end.
  split; [exact HOk|]. split; [reflexivity|]. auto 10.
Qed.

(** ** response.go: what Content returns *)

(** ** Headers of compressed bodies *)

Lemma gzip_extra_ok data pos p :
  gzip_extra data pos = header_ok p -> (pos < p <= length data)%nat.
Proof.
  unfold gzip_extra. intros H.
  destruct (length data <? pos + 2)%nat eqn:H1; [discriminate|].
  destruct (length data <? pos + 2 + Z.to_nat (le_Uint16 data pos))%nat eqn:H2;
    [discriminate|].
  apply Nat.ltb_ge in H1, H2. injection H as <-. lia.
Qed.

Lemma gzip_readString_ok rest : forall i n,
  gzip_readString rest i = header_ok n -> (i < n <= i + length rest)%nat.
Proof.
  induction rest as [|b rest IH]; intros i n H; cbn [gzip_readString] in H.
  - destruct (512 <=? i)%nat; discriminate.
  - destruct (512 <=? i)%nat; [discriminate|].
    destruct (byte_Z b =? 0)%Z.
    + injection H as <-. cbn [length]. lia.
    + apply IH in H. cbn [length]. lia.
Qed.

Lemma gzip_string_ok data pos p :
  (pos <= length data)%nat ->
  gzip_string data pos = header_ok p -> (pos < p <= length data)%nat.
Proof.
  unfold gzip_string, and_then. intros Hpos H.
  destruct (gzip_readString (drop pos data) 0) as [n| |] eqn:Hn; try discriminate.
  apply gzip_readString_ok in Hn. rewrite length_drop in Hn.
  injection H as <-. lia.
Qed.

Lemma gzip_hcrc_ok data pos p :
  gzip_hcrc data pos = header_ok p -> (pos < p <= length data)%nat.
Proof.
  unfold gzip_hcrc. intros H.
  destruct (length data <? pos + 2)%nat eqn:H1; [discriminate|].
  apply Nat.ltb_ge in H1.
  destruct (le_Uint16 data pos =? _)%Z; [|discriminate].
  injection H as <-. lia.
Qed.

(* a header that is accepted lies within the bytes that were judged *)
Lemma parse_header_ok c data k :
  parse_header c data = header_ok k -> (0 < k <= length data)%nat.
Proof.
  destruct c; cbn [parse_header].
  - unfold gzip_readHeader. intros H.
    destruct (length data <? 10)%nat eqn:H10; [discriminate|].
    apply Nat.ltb_ge in H10.
    destruct (negb _); [discriminate|].
    assert (H1 : exists p1, (10 <= p1 <= length data)%nat /\
              (if flag_set (byte_at data 3) 4 then gzip_extra data 10 else header_ok 10)
              = header_ok p1).
    { destruct (flag_set (byte_at data 3) 4).
      - destruct (gzip_extra data 10) as [p| |] eqn:Hp; try discriminate.
        exists p. split; [apply gzip_extra_ok in Hp; lia | reflexivity].
      - exists 10%nat. split; [lia | reflexivity]. }
    destruct H1 as (p1 & Hp1 & E1). rewrite E1 in H. cbn [and_then] in H.
    assert (H2 : exists p2, (10 <= p2 <= length data)%nat /\
              (if flag_set (byte_at data 3) 8 then gzip_string data p1 else header_ok p1)
              = header_ok p2).
    { destruct (flag_set (byte_at data 3) 8).
      - destruct (gzip_string data p1) as [p| |] eqn:Hp; try discriminate.
        exists p. split; [apply gzip_string_ok in Hp; lia | reflexivity].
      - exists p1. split; [lia | reflexivity]. }
    destruct H2 as (p2 & Hp2 & E2). rewrite E2 in H. cbn [and_then] in H.
    assert (H3 : exists p3, (10 <= p3 <= length data)%nat /\
              (if flag_set (byte_at data 3) 16 then gzip_string data p2 else header_ok p2)
              = header_ok p3).
    { destruct (flag_set (byte_at data 3) 16).
      - destruct (gzip_string data p2) as [p| |] eqn:Hp; try discriminate.
        exists p. split; [apply gzip_string_ok in Hp; lia | reflexivity].
      - exists p2. split; [lia | reflexivity]. }
    destruct H3 as (p3 & Hp3 & E3). rewrite E3 in H. cbn [and_then] in H.
    destruct (flag_set (byte_at data 3) 2).
    + apply gzip_hcrc_ok in H. lia.
    + injection H as <-. lia.
  - unfold zlib_readHeader. intros H.
    destruct (length data <? 2)%nat eqn:H2; [discriminate|].
    apply Nat.ltb_ge in H2.
    destruct (_ || _); [discriminate|].
    destruct (flag_set (byte_at data 1) 32).
    + destruct (length data <? 6)%nat eqn:H6; [discriminate|].
      apply Nat.ltb_ge in H6.
      destruct (_ =? adler32_of_nil)%Z; [|discriminate].
      injection H as <-. lia.
    + injection H as <-. lia.
Qed.

Lemma parse_header_nil c : parse_header c [] = header_short.
Proof. destruct c; reflexivity. Qed.

Lemma inflate_status_EOF c status :
  inflate_status c status io_EOF = default io_EOF status.
Proof.
  destruct status as [e|]; cbn.
  - rewrite andb_false_r. reflexivity.
  - destruct c; reflexivity.
Qed.

(* the header of a body arrives with the first read *)
Lemma body_read_header budget c s :
  closed s = false -> pending s <> [] ->
  parse_header c (take 4096 (pending s)) <> header_short ->
  read_header body_Read (S budget) c [] s =
  Some (Returns (match parse_header c (take 4096 (pending s)) with
                 | header_ok k => inl (drop k (take 4096 (pending s)))
                 | header_bad e => inr e
                 | header_short => inr io_ErrUnexpectedEOF
                 end),
        mkStream (drop 4096 (pending s)) (failure s) false (S (reads s)) (closes s)).
Proof.
  intros Hopen Hne Hp. cbn [read_header]. rewrite body_Read_eq.
  destruct (pending s) as [|x xs] eqn:Hpend; [done|].
  rewrite (Stream_Read_chunk _ _ _ _ Hopen Hpend). cbn [fst snd]. cbv zeta.
  rewrite app_nil_l.
  destruct (parse_header c (take 4096 (x :: xs))); [reflexivity|reflexivity|done].
Qed.

Lemma body_read_header_ok budget c s k :
  closed s = false ->
  parse_header c (take 4096 (pending s)) = header_ok k ->
  read_header body_Read (S budget) c [] s =
  Some (Returns (inl (drop k (take 4096 (pending s)))),
        mkStream (drop 4096 (pending s)) (failure s) false (S (reads s)) (closes s)).
Proof.
  intros Hopen Hk. rewrite body_read_header; [rewrite Hk; reflexivity|exact Hopen| |].
  - intros Hp. rewrite Hp in Hk. cbn [take] in Hk. rewrite parse_header_nil in Hk.
    discriminate.
  - rewrite Hk. discriminate.
Qed.

Lemma body_read_header_bad budget c s e :
  closed s = false ->
  parse_header c (take 4096 (pending s)) = header_bad e ->
  read_header body_Read (S budget) c [] s =
  Some (Returns (inr e),
        mkStream (drop 4096 (pending s)) (failure s) false (S (reads s)) (closes s)).
Proof.
  intros Hopen Hk. rewrite body_read_header; [rewrite Hk; reflexivity|exact Hopen| |].
  - intros Hp. rewrite Hp in Hk. cbn [take] in Hk. rewrite parse_header_nil in Hk.
    discriminate.
  - rewrite Hk. discriminate.
Qed.

Section CurrentDecode.
Import Current.
Variable lib : Library.

Lemma Current_identity n r s :
  content r = None -> stream r = Some s ->
  encoding_of (Header_Get (http.Header (embedded r)) "Content-Encoding") = None ->
  closed s = false -> failure s = None -> (length (pending s) < n)%nat ->
  exists r' k,
    Content lib n r = Some (Returns (Some (pending s), None), r') /\
    content r' = Some (pending s) /\
    stream r' = Some (mkStream [] None true (reads s + S k) (S (closes s))).
Proof.
  unfold stream. intros Hc Hs Henc Hopen Hf Hlen.
  destruct (body_read_until_error n 512 [] s Hopen ltac:(lia) Hlen) as [k Hk].
  rewrite Current_Content_loadContent.
  unfold loadContent, loadContent_body, select_reader.
  rewrite Hc, Henc, Hs. cbv beta match.
  unfold ReadAll. rewrite Hs, Hk, Hf. cbn.
  do 2 eexists. split; [reflexivity|]. split; reflexivity.
Qed.

Lemma Current_compressed n r s c k out status :
  content r = None -> stream r = Some s ->
  encoding_of (Header_Get (http.Header (embedded r)) "Content-Encoding") = Some c ->
  closed s = false -> failure s = None -> (length (pending s) < n)%nat ->
  parse_header c (take 4096 (pending s)) = header_ok k ->
  inflate lib c (drop k (pending s)) = (out, status) ->
  exists r',
    Content lib n r =
      Some (Returns (match status with
                     | None => (Some out, None)
                     | Some e => if error_eqb_EOF e then (Some out, None) else (None, Some e)
                     end), r') /\
    content r' = (match status with None => Some out | Some e => if error_eqb_EOF e then Some out else None end) /\
    closed <$> stream r' = Some false.
Proof.
  unfold stream. intros Hc Hs Henc Hopen Hf Hlen Hhdr Hinf.
  pose proof (parse_header_ok _ _ _ Hhdr) as Hk.
  destruct n as [|n]; [lia|].
  set (s1 := mkStream (drop 4096 (pending s)) (failure s) false (S (reads s)) (closes s)).
  destruct (body_read_until_error (S n) 4096 [] s1 eq_refl ltac:(lia)) as [j Hj].
  { cbn [pending s1]. rewrite length_drop. lia. }
  rewrite Current_Content_loadContent.
  unfold loadContent, loadContent_body, select_reader, new_decompressor, NewReader.
  rewrite Hc, Henc, Hs. cbv beta match.
  rewrite (body_read_header_ok n _ s k Hopen Hhdr). fold s1. cbv beta match.
  unfold ReadAll, inflate_until_error. cbn [embedded with_Body http.Body http.with_Body].
  rewrite Hj. cbn [pending failure s1]. rewrite app_nil_l, Hf.
  rewrite <- (drop_app_le _ _ k) by lia.
  rewrite take_drop, Hinf. cbn [default from_option id]. rewrite inflate_status_EOF.
  destruct status as [e|]; [destruct (error_eqb_EOF e) eqn:He|]; cbn; rewrite ?He; cbn;
    eexists; (split; [reflexivity|]); split; first [reflexivity | exact Hc].
Qed.

End CurrentDecode.

(** ** The earlier version: Content *)

Lemma Legacy_Content_ok (lib : Library) n r c r' :
  Legacy.Content lib n r = Some (Returns (c, None), r') ->
  exists buf, Legacy.content r' = Some buf /\
              c = if (length buf =? 0)%nat then None else Some buf.
Proof.
  unfold Legacy.Content. intros H.
  repeat case_match; simplify_eq; eexists; split; try eassumption.
  all: match goal with H : (_ =? _)%nat = _ |- _ => rewrite H end; reflexivity.
Qed.




(** ** The earlier version: reading through the response *)

Section LegacyRead.
Import Legacy.

Lemma Legacy_with_Body_stream r s0 s :
  stream r = Some s0 -> stream (with_Body s r) = Some s.
Proof.
  unfold stream, with_Body. destruct (RawResponse r) as [raw|]; [|done].
  reflexivity.
Qed.

Lemma Legacy_with_Body_twice r s0 s1 s :
  stream r = Some s0 -> with_Body s (with_Body s1 r) = with_Body s r.
Proof.
  unfold stream, with_Body. destruct (RawResponse r) as [raw|]; [|done].
  reflexivity.
Qed.

Lemma Legacy_Read_source strict n r s :
  internalError r = None -> stream r = Some s ->
  Read_source strict n r =
  Some (Returns (Stream_Read n s).1, with_Body (Stream_Read n s).2 r).
Proof.
  unfold Read_source, Read, stream. intros -> Hs.
  destruct (RawResponse r) as [raw|] eqn:Hraw; [|done]. cbn in Hs. rewrite Hs.
  destruct (Stream_Read n s) as [[bs e] s']. cbn [fst snd].
  replace (Z.of_nat (length bs) <? 0)%Z with false by (symmetry; apply Z.ltb_ge; lia).
  rewrite andb_false_r. reflexivity.
Qed.

(* a loop that reads the response reads the body *)
Lemma Legacy_read_until_error strict budget bufsz :
  forall acc r s,
    internalError r = None -> stream r = Some s ->
    read_until_error (Read_source strict) budget bufsz acc r =
    match read_until_error body_Read budget bufsz acc s with
    | Some (res, s') => Some (res, with_Body s' r)
    | None => None
    end.
Proof.
  induction budget as [|budget IH]; intros acc r s He Hs; [reflexivity|].
  cbn [read_until_error].
  rewrite (Legacy_Read_source strict bufsz r s He Hs), body_Read_eq.
  destruct (Stream_Read bufsz s) as [[bs [e|]] s1]; cbn [fst snd]; [reflexivity|].
  rewrite (IH (acc ++ bs) (with_Body s1 r) s1 He (Legacy_with_Body_stream r s s1 Hs)).
  destruct (read_until_error body_Read budget bufsz (acc ++ bs) s1) as [[res s']|];
    [|reflexivity].
  rewrite (Legacy_with_Body_twice r s s1 s' Hs). reflexivity.
Qed.

Lemma Legacy_read_header budget c :
  forall acc r s,
    internalError r = None -> stream r = Some s ->
    read_header (Read_source false) budget c acc r =
    match read_header body_Read budget c acc s with
    | Some (res, s') => Some (res, with_Body s' r)
    | None => None
    end.
Proof.
  induction budget as [|budget IH]; intros acc r s He Hs; [reflexivity|].
  cbn [read_header].
  rewrite (Legacy_Read_source false 4096 r s He Hs), body_Read_eq.
  destruct (Stream_Read 4096 s) as [[bs e] s1]; cbn [fst snd]; cbv zeta.
  destruct (parse_header c (acc ++ bs)); [reflexivity|reflexivity|].
  destruct e as [e|]; [reflexivity|].
  rewrite (IH (acc ++ bs) (with_Body s1 r) s1 He (Legacy_with_Body_stream r s s1 Hs)).
  destruct (read_header body_Read budget c (acc ++ bs) s1) as [[res s']|];
    [|reflexivity].
  rewrite (Legacy_with_Body_twice r s s1 s' Hs). reflexivity.
Qed.

(* Close on a body that is at its end, or closed already *)
Lemma Legacy_Close_at_end budget r s :
  internalError r = None -> stream r = Some s ->
  closed s = true \/ pending s = [] ->
  Close (S budget) r =
  Some (Returns None,
        with_Body (mkStream (pending s) (failure s) true (S (reads s)) (S (closes s))) r).
Proof.
  intros He Hs Hend. unfold Close. rewrite He.
  rewrite (Legacy_read_until_error false (S budget) 8192 [] r s He Hs).
  assert (exists e, read_until_error body_Read (S budget) 8192 [] s =
            Some (Returns ([], e),
                  mkStream (pending s) (failure s) (closed s) (S (reads s)) (closes s)))
    as [e ->].
  { destruct (closed s) eqn:Hc.
    - eexists. apply (closed_read_until_error budget 8192 [] s Hc).
    - destruct Hend as [|Hp]; [done|]. eexists.
      rewrite (read_until_error_stop body_Read budget 8192 [] s []
                 (default io_EOF (failure s))
                 (mkStream [] (failure s) false (S (reads s)) (closes s))).
      + rewrite Hp. reflexivity.
      + rewrite body_Read_eq, (Stream_Read_end _ _ Hc Hp). reflexivity. }
  unfold Body_Close.
  pose proof (Legacy_with_Body_stream r s
                (mkStream (pending s) (failure s) (closed s) (S (reads s)) (closes s)) Hs) as Hs1.
  unfold stream in Hs1.
  destruct (RawResponse (with_Body _ r)) as [raw1|] eqn:Hraw1; [|done].
  cbn in Hs1. rewrite Hs1. cbn [Stream_Close pending failure closed reads closes].
  rewrite (Legacy_with_Body_twice r s _ _ Hs). reflexivity.
Qed.
End LegacyRead.

(* a declared length that the runtime accepts *)
Lemma Legacy_Grow_returns len :
  (len <= maxAlloc)%Z ->
  (if (0 <? len)%Z then Buffer_Grow len else Returns tt) = Returns tt.
Proof.
  intros H. unfold Buffer_Grow. destruct (0 <? len)%Z; [|reflexivity].
  replace (maxAlloc <? len)%Z with false by (symmetry; apply Z.ltb_ge; exact H).
  reflexivity.
Qed.

Section LegacyDecode.
Import Legacy.
Variable lib : Library.

(* the deferred function on a body that has been read to its end *)
Lemma Legacy_deferred_at_end budget reader r s :
  reader = self_ReadCloser \/ (exists c buffered, reader = decompressor c buffered) ->
  internalError r = None -> stream r = Some s ->
  closed s = true \/ pending s = [] ->
  exists s',
    loadContent_deferred reader (S budget) r = Some (Returns tt, with_Body s' r) /\
    closed s' = true /\ pending s' = pending s.
Proof.
  intros Hreader He Hs Hend. unfold loadContent_deferred.
  rewrite (Legacy_Close_at_end budget r s He Hs Hend).
  set (s2 := mkStream (pending s) (failure s) true (S (reads s)) (S (closes s))).
  destruct Hreader as [->|(c & buffered & ->)]; cbn [reader_Close].
  - rewrite (Legacy_Close_at_end budget (with_Body s2 r) s2 He
               (Legacy_with_Body_stream r s s2 Hs) (or_introl eq_refl)).
    rewrite (Legacy_with_Body_twice r s _ _ Hs).
    eexists. split; [reflexivity|]. split; reflexivity.
  - eexists. split; [reflexivity|]. split; reflexivity.
Qed.

Lemma Legacy_identity n r raw s :
  internalError r = None -> content r = Some [] ->
  RawResponse r = Some raw -> http.Body raw = Some s ->
  http.ContentLength raw <> 0%Z -> (http.ContentLength raw <= maxAlloc)%Z ->
  encoding_of (Header_Get (Header r) "Content-Encoding") = None ->
  closed s = false -> failure s = None -> (length (pending s) < n)%nat ->
  exists r',
    Content lib n r =
      Some (Returns (match pending s with
                     | [] => None
                     | _ :: _ => Some (pending s)
                     end, None), r') /\
    content r' = Some (pending s) /\
    closed <$> stream r' = Some true.
Proof.
  intros He Hc Hraw Hbody Hlen0 Hgrow Henc Hopen Hf Hlen.
  assert (Hs : stream r = Some s) by (unfold stream; rewrite Hraw; exact Hbody).
  destruct n as [|n]; [lia|].
  destruct (body_read_until_error (S n) 512 [] s Hopen ltac:(lia) Hlen) as [k Hk].
  set (s1 := mkStream [] (failure s) false (reads s + S k) (closes s)) in Hk.
  set (r1 := with_content (pending s) (with_Body s1 r)).
  assert (He1 : internalError r1 = None) by exact He.
  assert (Hs1 : stream r1 = Some s1) by exact (Legacy_with_Body_stream r s s1 Hs).
  destruct (Legacy_deferred_at_end n self_ReadCloser r1 s1 (or_introl eq_refl)
              He1 Hs1 (or_intror eq_refl)) as (s' & Hd & Hcl & _).
  assert (Hload : loadContent lib (S n) r = Some (Returns None, with_Body s' r1)).
  { unfold loadContent. rewrite He, Hc. cbn [length Nat.eqb negb]. rewrite Hraw.
    rewrite (proj2 (Z.eqb_neq _ _) Hlen0), (Legacy_Grow_returns _ Hgrow).
    unfold loadContent_body, select_reader. rewrite Henc. cbv beta match.
    unfold copy_to_content.
    rewrite (Legacy_read_until_error true (S n) 512 [] r s He Hs), Hk.
    rewrite Hf. cbn [default error_eqb_EOF].
    change (content (with_Body s1 r)) with (content r). rewrite Hc.
    cbn [default from_option id app].
    fold r1. rewrite Hd. reflexivity. }
  exists (with_Body s' r1). split; [|split].
  - unfold Content. rewrite Hload. cbn [content with_Body r1 with_content].
    destruct (pending s); reflexivity.
  - reflexivity.
  - rewrite (Legacy_with_Body_stream r1 s1 s' Hs1). cbn. rewrite Hcl. reflexivity.
Qed.

Lemma Legacy_compressed n r raw s c k out :
  internalError r = None -> content r = Some [] ->
  RawResponse r = Some raw -> http.Body raw = Some s ->
  http.ContentLength raw <> 0%Z -> (http.ContentLength raw <= maxAlloc)%Z ->
  encoding_of (Header_Get (Header r) "Content-Encoding") = Some c ->
  closed s = false -> failure s = None -> (length (pending s) < n)%nat ->
  parse_header c (take 4096 (pending s)) = header_ok k ->
  inflate lib c (drop k (pending s)) = (out, None) ->
  exists r',
    Content lib n r =
      Some (Returns (match out with
                     | [] => None
                     | _ :: _ => Some out
                     end, None), r') /\
    content r' = Some out /\
    closed <$> stream r' = Some true.
Proof.
  intros He Hc Hraw Hbody Hlen0 Hgrow Henc Hopen Hf Hlen Hhdr Hinf.
  assert (Hs : stream r = Some s) by (unfold stream; rewrite Hraw; exact Hbody).
  pose proof (parse_header_ok _ _ _ Hhdr) as Hk.
  destruct n as [|n]; [lia|].
  set (s1 := mkStream (drop 4096 (pending s)) (failure s) false (S (reads s)) (closes s)).
  destruct (body_read_until_error (S n) 4096 [] s1 eq_refl ltac:(lia)) as [j Hj].
  { cbn [pending s1]. rewrite length_drop. lia. }
  set (s2 := mkStream [] (failure s1) false (reads s1 + S j) (closes s1)) in Hj.
  set (r2 := with_content out (with_Body s2 (with_Body s1 r))).
  assert (Hs1 : stream (with_Body s1 r) = Some s1)
    by exact (Legacy_with_Body_stream r s s1 Hs).
  assert (Hs2 : stream r2 = Some s2)
    by exact (Legacy_with_Body_stream (with_Body s1 r) s1 s2 Hs1).
  destruct (Legacy_deferred_at_end n (decompressor c (drop k (take 4096 (pending s))))
              r2 s2 (or_intror (ex_intro _ _ (ex_intro _ _ eq_refl)))
              He Hs2 (or_intror eq_refl)) as (s' & Hd & Hcl & _).
  assert (Hload : loadContent lib (S n) r = Some (Returns None, with_Body s' r2)).
  { unfold loadContent. rewrite He, Hc. cbn [length Nat.eqb negb]. rewrite Hraw.
    rewrite (proj2 (Z.eqb_neq _ _) Hlen0), (Legacy_Grow_returns _ Hgrow).
    unfold loadContent_body, select_reader, new_decompressor, NewReader.
    rewrite Henc. cbv beta match.
    rewrite (Legacy_read_header (S n) c [] r s He Hs).
    rewrite (body_read_header_ok n _ s k Hopen Hhdr). fold s1. cbv beta match.
    unfold copy_to_content, inflate_until_error.
    rewrite (Legacy_read_until_error false (S n) 4096 [] (with_Body s1 r) s1 He Hs1), Hj.
    cbn [pending failure s1]. rewrite app_nil_l, Hf. cbn [default from_option id].
    rewrite <- (drop_app_le _ _ k) by lia.
    rewrite take_drop, Hinf, inflate_status_EOF. cbn [default from_option id error_eqb_EOF].
    change (content (with_Body s2 (with_Body s1 r))) with (content r). rewrite Hc.
    cbn [default from_option id app]. fold r2. rewrite Hd. reflexivity. }
  exists (with_Body s' r2). split; [|split].
  - unfold Content. rewrite Hload. cbn [content with_Body r2 with_content].
    destruct out; reflexivity.
  - reflexivity.
  - rewrite (Legacy_with_Body_stream r2 s2 s' Hs2). cbn. rewrite Hcl. reflexivity.
Qed.
End LegacyDecode.

(** ** The dispatch on Content-Encoding *)

Lemma encoding_of_cases v :
  (encoding_of v = Some Gzip <-> v = "gzip"%string) /\
  (encoding_of v = Some Deflate <-> v = "deflate"%string) /\
  (encoding_of v = None <-> v <> "gzip"%string /\ v <> "deflate"%string).
Proof.
  unfold encoding_of.
  destruct (String.eqb_spec v "gzip") as [->|Hg].
  { cbn. split; [done|]. split; split; try done. intros [H _]. done. }
  destruct (String.eqb_spec v "deflate") as [->|Hd].
  { split; [split; done|]. split; [done|]. split; try done. intros [_ H]. done. }
  split; [split; done|]. split; split; done.
Qed.

(** C6, as stated, fails: the value of the header is compared with
    [==], so that a value in capitals is none of the two cases. *)
Lemma capitals_are_not_matched :
  ~ (forall v : string, encoding_of v = spec_encoding_of v).
Proof. intros H. specialize (H "GZIP"%string). vm_compute in H. discriminate H. Qed.

(* a gzip member announced as GZIP is handed out as it arrived *)
Lemma capitals_end_to_end (lib : Library) (n : nat) :
  (exists r', Current.Content lib (S (S n)) (Current.NewResponse gzipped_capitals) =
              Some (Returns (Some gzip_member, None), r')) /\
  (exists r', Legacy.Content lib (S (S n)) (legacy_of gzipped_capitals) =
              Some (Returns (Some gzip_member, None), r')) /\
  (exists r', Current.Content stored_library (S (S n)) (Current.NewResponse gzipped) =
              Some (Returns (Some (bytes_of "AB"), None), r')).
Proof. split; [eexists; run|]. split; eexists; run. Qed.

(** C6, amended. The first value of the Content-Encoding header (looked
    up under its canonical name, so that the spelling of the name on the
    wire does not matter; a second value of the header is not looked at)
    is compared exactly, capitals included, with "gzip" and "deflate":
    "gzip" selects the gzip reader, "deflate" the zlib reader, every other
    value and an absent header the body itself.  With the body itself
    Content() returns the bytes of the body as they are; with a
    decompressor whose header is accepted it returns what the decompressor
    makes of the bytes after the header.  In the earlier version this
    holds for a declared length that is not zero and not above the length
    of the body, as it is when the body arrives in full (nor above what
    the buffer can grow to), and nil stands for an empty result. *)
Theorem dispatch_is_exact (lib : Library) (n : nat) :
  (forall v,
      (encoding_of v = Some Gzip <-> v = "gzip"%string) /\
      (encoding_of v = Some Deflate <-> v = "deflate"%string) /\
      (encoding_of v = None <-> v <> "gzip"%string /\ v <> "deflate"%string)) /\
  encoding_of (Header_Get ∅ "Content-Encoding") = None /\
  (forall name v,
      CanonicalMIMEHeaderKey name = "Content-Encoding"%string ->
      Header_Get (Header_Add name v ∅) "Content-Encoding" = v) /\
  (forall (h : gmap string (list string)) v rest,
      h !! "Content-Encoding"%string = Some (v :: rest) ->
      Header_Get h "Content-Encoding" = v) /\
  (forall name1 name2 v w,
      CanonicalMIMEHeaderKey name1 = "Content-Encoding"%string ->
      CanonicalMIMEHeaderKey name2 = "Content-Encoding"%string ->
      Header_Get (Header_Add name2 w (Header_Add name1 v ∅)) "Content-Encoding" = v) /\
  (forall r s,
      Current.content r = None -> Current.stream r = Some s ->
      encoding_of (Header_Get (http.Header (Current.embedded r)) "Content-Encoding")
        = None ->
      closed s = false -> failure s = None -> (length (pending s) < n)%nat ->
      exists r',
        Current.Content lib n r = Some (Returns (Some (pending s), None), r')) /\
  (forall r s c k out,
      Current.content r = None -> Current.stream r = Some s ->
      encoding_of (Header_Get (http.Header (Current.embedded r)) "Content-Encoding")
        = Some c ->
      closed s = false -> failure s = None -> (length (pending s) < n)%nat ->
      parse_header c (take 4096 (pending s)) = header_ok k ->
      inflate lib c (drop k (pending s)) = (out, None) ->
      exists r',
        Current.Content lib n r = Some (Returns (Some out, None), r')) /\
  (forall r raw s,
      Legacy.internalError r = None -> Legacy.content r = Some [] ->
      Legacy.RawResponse r = Some raw -> http.Body raw = Some s ->
      http.ContentLength raw <> 0%Z ->
      (http.ContentLength raw <= Z.of_nat (length (pending s)))%Z ->
      (http.ContentLength raw <= maxAlloc)%Z ->
      encoding_of (Header_Get (Legacy.Header r) "Content-Encoding") = None ->
      closed s = false -> failure s = None -> (length (pending s) < n)%nat ->
      exists r',
        Legacy.Content lib n r =
        Some (Returns (match pending s with
                       | [] => None
                       | _ :: _ => Some (pending s)
                       end, None), r')) /\
  (forall r raw s c k out,
      Legacy.internalError r = None -> Legacy.content r = Some [] ->
      Legacy.RawResponse r = Some raw -> http.Body raw = Some s ->
      http.ContentLength raw <> 0%Z ->
      (http.ContentLength raw <= Z.of_nat (length (pending s)))%Z ->
      (http.ContentLength raw <= maxAlloc)%Z ->
      encoding_of (Header_Get (Legacy.Header r) "Content-Encoding") = Some c ->
      closed s = false -> failure s = None -> (length (pending s) < n)%nat ->
      parse_header c (take 4096 (pending s)) = header_ok k ->
      inflate lib c (drop k (pending s)) = (out, None) ->
      exists r',
        Legacy.Content lib n r =
        Some (Returns (match out with
                       | [] => None
                       | _ :: _ => Some out
                       end, None), r')).
Proof.
  split; [exact encoding_of_cases|]. split; [reflexivity|].
  split; [|split; [|split; [|split; [|split; [|split]]]]].
  - intros name v Hname. unfold Header_Get, Header_Add. rewrite Hname.
    change (CanonicalMIMEHeaderKey "Content-Encoding") with "Content-Encoding"%string.
    rewrite lookup_empty, lookup_insert_eq. reflexivity.
  - intros h v rest Hh. unfold Header_Get.
    change (CanonicalMIMEHeaderKey "Content-Encoding") with "Content-Encoding"%string.
    rewrite Hh. reflexivity.
  - intros name1 name2 v w H1 H2. unfold Header_Get, Header_Add. rewrite H1, H2.
    change (CanonicalMIMEHeaderKey "Content-Encoding") with "Content-Encoding"%string.
    rewrite lookup_empty, !lookup_insert_eq. reflexivity.
  - intros r s Hc Hs Henc Hopen Hf Hlen.
    destruct (Current_identity lib n r s Hc Hs Henc Hopen Hf Hlen) as (r' & j & H & _).
    eauto.
  - intros r s c k out Hc Hs Henc Hopen Hf Hlen Hhdr Hinf.
    destruct (Current_compressed lib n r s c k out None Hc Hs Henc Hopen Hf Hlen Hhdr
                Hinf) as (r' & H & _).
    eauto.
  - intros r raw s He Hc Hraw Hbody Hlen0 _ Hgrow Henc Hopen Hf Hlen.
    destruct (Legacy_identity lib n r raw s He Hc Hraw Hbody Hlen0 Hgrow Henc Hopen Hf
                Hlen) as (r' & H & _).
    eauto.
  - intros r raw s c k out He Hc Hraw Hbody Hlen0 _ Hgrow Henc Hopen Hf Hlen Hhdr Hinf.
    destruct (Legacy_compressed lib n r raw s c k out He Hc Hraw Hbody Hlen0 Hgrow Henc
                Hopen Hf Hlen Hhdr Hinf) as (r' & H & _).
    eauto.
Qed.

Lemma dispatch_is_exact_witness :
  Header_Get (Header_Add "content-ENCODING" "gzip" ∅) "Content-Encoding" = "gzip"%string /\
  Header_Get (Header_Add "Content-Encoding" "gzip"
                (Header_Add "content-encoding" "identity" ∅)) "Content-Encoding"
    = "identity"%string /\
  (exists r', Current.Content stored_library 2 (Current.NewResponse (plain 200 "a")) =
              Some (Returns (Some (bytes_of "a"), None), r')) /\
  (exists r', Current.Content stored_library 13 (Current.NewResponse gzipped) =
              Some (Returns (Some (bytes_of "AB"), None), r')) /\
  (exists r', Current.Content stored_library 13 (Current.NewResponse deflated_with_dictionary) =
              Some (Returns (Some (bytes_of "AB"), None), r')) /\
  (exists r', Legacy.Content stored_library 2 (legacy_of (plain 200 "a")) =
              Some (Returns (Some (bytes_of "a"), None), r')) /\
  (exists r', Legacy.Content stored_library 13 (legacy_of gzipped) =
              Some (Returns (Some (bytes_of "AB"), None), r')).
Proof.
  destruct (dispatch_is_exact stored_library 2)
    as (_ & _ & Hname & _ & Hfirst & Hci & _ & Hli & _).
  destruct (dispatch_is_exact stored_library 13)
    as (_ & _ & _ & _ & _ & _ & Hcc & _ & Hlc).
  split; [apply Hname; reflexivity|].
  split; [apply Hfirst; reflexivity|].
  split; [|split; [|split; [|split]]].
  - apply (Hci (Current.NewResponse (plain 200 "a")) (open_stream (bytes_of "a")));
      first [reflexivity | vm_compute; lia].
  - apply (Hcc (Current.NewResponse gzipped) (open_stream gzip_member) Gzip 10%nat
               (bytes_of "AB"));
      first [reflexivity | vm_compute; lia].
  - apply (Hcc (Current.NewResponse deflated_with_dictionary)
               (open_stream zlib_stream_with_dictionary) Deflate 6%nat (bytes_of "AB"));
      first [reflexivity | vm_compute; lia].
  - apply (Hli (legacy_of (plain 200 "a")) (plain 200 "a") (open_stream (bytes_of "a")));
      first [reflexivity | discriminate | vm_compute; lia
            | vm_compute; intros H; discriminate H].
  - apply (Hlc (legacy_of gzipped) gzipped (open_stream gzip_member) Gzip 10%nat
               (bytes_of "AB"));
      first [reflexivity | discriminate | vm_compute; lia
            | vm_compute; intros H; discriminate H].
Defined.

(** ** SaveContent *)

(* response.go: the file holds what Content() returns *)
Lemma Current_SaveContent_file (lib : Library) path n r fs r' fs' :
  Current.SaveContent lib path n (r, fs) = Some (Returns None, (r', fs')) ->
  exists data,
    files fs' !! path = Some data /\
    Current.content r' = Some data /\
    forall m, Current.Content lib m r' = Some (Returns (Some data, None), r').
Proof.
  unfold Current.SaveContent, os_Create. intros H.
  destruct (decide (path ∈ read_only fs)); [simplify_eq|].
  destruct (Current.loadContent lib n r) as [[[[c [e|]]|m] r1]|] eqn:Hl; simplify_eq.
  apply Current_loadContent_ok in Hl as (data & -> & Hd).
  unfold File_Write in H. cbn [files free_space read_only default from_option id] in H.
  rewrite lookup_insert_eq in H. cbn [default from_option id app] in H.
  exists data.
  assert (files fs' !! path = Some data /\ r1 = r') as [Hfile ->].
  { destruct (free_space fs) as [k|]; [destruct (k <? length data)%nat|];
      simplify_eq; cbn [files]; rewrite lookup_insert_eq; done. }
  split; [exact Hfile|]. split; [exact Hd|].
  intros m. exact (proj1 (Current_served_from_cache lib m r' data Hd)).
Qed.

(** C7 (earlier version). SaveContent on a response that has not been
    read copies the body as it arrives: for a gzip member the file holds
    the compressed bytes, header included, whereas Content() on the same
    response returns the decoded payload. *)
Theorem Legacy_SaveContent_copies_the_raw_body (lib : Library) (n : nat) :
  exists r' fs' r'',
    Legacy.SaveContent "/tmp/x" (S (S n)) (legacy_of gzipped, empty_disk) =
      Some (Returns None, (r', fs')) /\
    files fs' !! "/tmp/x"%string = Some gzip_member /\
    Legacy.Content stored_library (S (S n)) (legacy_of gzipped) =
      Some (Returns (Some (bytes_of "AB"), None), r'') /\
    gzip_member <> bytes_of "AB".
Proof.
  do 3 eexists. do 3 (split; [run|]). discriminate.
Qed.

(** ** A body that is not JSON *)

(* response.go: a parse error leaves the cache as it is *)
Lemma Current_parse_failure_keeps_cache (lib : Library) n r c r' :
  Current.Content lib n r = Some (Returns (Some c, None), r') ->
  (forall e, encoding_json_Unmarshal lib c = inr e ->
             Current.JSON lib n r = Some (Returns (None, Some e), r')) /\
  (forall e, json_Unmarshal lib c = inr e ->
             Current.SimpleJSON lib n r = Some (Returns (None, Some e), r')) /\
  forall m, Current.Content lib m r' = Some (Returns (Some c, None), r').
Proof.
  intros HC.
  assert (Hl : Current.loadContent lib n r = Some (Returns (Some c, None), r')).
  { rewrite Current_Content_loadContent in HC. repeat case_match; simplify_eq; done. }
  unfold Current.JSON, Current.SimpleJSON, Current.parse, Current.unmarshal. rewrite Hl.
  cbn [default from_option id].
  split; [intros e ->; done|]. split; [intros e ->; done|].
  intros m. apply Current_loadContent_ok in Hl as (data & Hdata & Hd). simplify_eq.
  exact (proj1 (Current_served_from_cache lib m r' data Hd)).
Qed.

(** C8 (earlier version). For an empty body of undeclared length Json()
    returns what the parser says of the empty document (a syntax error)
    and records nothing, and the Content() that follows on the same
    response does not succeed: the buffer is empty, the stream is read
    again and the error of reading a closed body is returned. *)
Theorem Legacy_Content_after_parse_failure (lib : Library) (n : nat) :
  exists r1 r2,
    Legacy.Json lib (S n) (legacy_of empty_unknown_length) =
      Some (Returns (Legacy.parse lib None), r1) /\
    Legacy.parse stored_library None =
      (None, Some (json_SyntaxError "invalid character")) /\
    Legacy.internalError r1 = None /\
    Legacy.Content lib (S n) r1 =
      Some (Returns (None, Some http_errReadOnClosedResBody), r2).
Proof. do 2 eexists. do 3 (split; [run|]). run. Qed.

(** * Further properties *)

(** ** What the reading loops keep *)

Lemma read_until_error_preserves {St A : Type}
      (rd : nat -> St -> option (outcome (list byte * option error) * St))
      (f : St -> A) :
  (forall n s res s', rd n s = Some (res, s') -> f s' = f s) ->
  forall budget bufsz acc s res s',
    read_until_error rd budget bufsz acc s = Some (res, s') -> f s' = f s.
Proof.
  intros Hrd. induction budget as [|budget IH]; intros bufsz acc s res s' H;
    [discriminate|].
  cbn [read_until_error] in H.
  destruct (rd bufsz s) as [[[[bs [e|]]|m] s1]|] eqn:Hr; simplify_eq.
  - exact (Hrd _ _ _ _ Hr).
  - rewrite (IH _ _ _ _ _ H). exact (Hrd _ _ _ _ Hr).
  - exact (Hrd _ _ _ _ Hr).
Qed.

Lemma read_header_preserves {St A : Type}
      (rd : nat -> St -> option (outcome (list byte * option error) * St))
      (f : St -> A) :
  (forall n s res s', rd n s = Some (res, s') -> f s' = f s) ->
  forall budget c acc s res s',
    read_header rd budget c acc s = Some (res, s') -> f s' = f s.
Proof.
  intros Hrd. induction budget as [|budget IH]; intros c acc s res s' H;
    [discriminate|].
  cbn [read_header] in H.
  destruct (rd 4096 s) as [[[[bs e]|m] s1]|] eqn:Hr; simplify_eq.
  - cbv zeta in H. destruct (parse_header c (acc ++ bs)); simplify_eq.
    + exact (Hrd _ _ _ _ Hr).
    + exact (Hrd _ _ _ _ Hr).
    + destruct e as [e|]; simplify_eq.
      * exact (Hrd _ _ _ _ Hr).
      * rewrite (IH _ _ _ _ _ H). exact (Hrd _ _ _ _ Hr).
  - exact (Hrd _ _ _ _ Hr).
Qed.

(* reading a body neither closes it nor changes how it will end *)
Lemma body_Read_keeps n s res s' :
  body_Read n s = Some (res, s') ->
  (closed s', closes s', failure s') = (closed s, closes s, failure s).
Proof.
  rewrite body_Read_eq. unfold Stream_Read. intros H.
  repeat case_match; simplify_eq; reflexivity.
Qed.

(** ** response.go: the accessors *)

Lemma Current_Content_state (lib : Library) n r res r' :
  Current.Content lib n r = Some (res, r') ->
  exists res0, Current.loadContent lib n r = Some (res0, r').
Proof.
  rewrite Current_Content_loadContent. intros H.
  destruct (Current.loadContent lib n r) as [[[[c [e|]]|m] r0]|]; simplify_eq; eauto.
Qed.

(** X1 (response.go). Once Content() has returned without error, its
    result is a slice that every later Content, Text, JSON and SimpleJSON
    on the response returns again (as bytes, as a string, as what
    json.Unmarshal makes of it, as what simplejson.NewJson makes of it),
    leaving the response, its body included, untouched. *)
Theorem Current_Content_is_remembered (lib : Library) n r c r' :
  Current.Content lib n r = Some (Returns (c, None), r') ->
  exists data,
    c = Some data /\
    forall m,
      Current.Content lib m r' = Some (Returns (Some data, None), r') /\
      Current.Text lib m r' = Some (Returns (string_of_list_byte data, None), r') /\
      Current.JSON lib m r' = Some (Returns (Current.unmarshal lib (Some data)), r') /\
      Current.SimpleJSON lib m r' = Some (Returns (Current.parse lib (Some data)), r').
Proof.
  intros H. apply Current_Content_ok in H as (data & -> & Hd).
  exists data. split; [reflexivity|]. intros m.
  exact (Current_served_from_cache lib m r' data Hd).
Qed.

Lemma Current_Content_is_remembered_witness :
  Current.Content stored_library 2 fresh_two =
    Some (Returns (Some (bytes_of "true false"), None), loaded_two) /\
  Current.Content stored_library 0 loaded_two =
    Some (Returns (Some (bytes_of "true false"), None), loaded_two) /\
  Current.Text stored_library 0 loaded_two =
    Some (Returns ("true false"%string, None), loaded_two) /\
  Current.JSON stored_library 0 loaded_two =
    Some (Returns (None, Some (json_SyntaxError "invalid character")), loaded_two) /\
  Current.SimpleJSON stored_library 0 loaded_two =
    Some (Returns (Some (JBool true), None), loaded_two).
Proof.
  assert (H : Current.Content stored_library 2 fresh_two =
              Some (Returns (Some (bytes_of "true false"), None), loaded_two))
    by (vm_compute; reflexivity).
  split; [exact H|].
  destruct (Current_Content_is_remembered stored_library 2 fresh_two _ loaded_two H)
    as (data & Hdata & Hall).
  injection Hdata as <-.
  destruct (Hall 0%nat) as (HC & HT & HJ & HS).
  split; [exact HC|]. split; [exact HT|]. split; [exact HJ|exact HS].
Defined.

(** X2 (response.go). Text, JSON and SimpleJSON are Content seen
    otherwise: with the same budget they leave the same response behind;
    when Content returns bytes, Text returns the string with exactly those
    bytes, JSON what json.Unmarshal makes of them and SimpleJSON what
    simplejson.NewJson makes of them; when Content returns an error, Text
    returns the empty string and that error, JSON that error, and
    SimpleJSON that error wrapped in "Json error". *)
Theorem Current_accessors_agree (lib : Library) n r c e r' :
  Current.Content lib n r = Some (Returns (c, e), r') ->
  match e with
  | None =>
      exists data,
        c = Some data /\
        Current.Text lib n r = Some (Returns (string_of_list_byte data, None), r') /\
        list_byte_of_string (string_of_list_byte data) = data /\
        Current.JSON lib n r = Some (Returns (Current.unmarshal lib (Some data)), r') /\
        Current.SimpleJSON lib n r = Some (Returns (Current.parse lib (Some data)), r')
  | Some err =>
      c = None /\
      Current.Text lib n r = Some (Returns (EmptyString, Some err), r') /\
      Current.JSON lib n r = Some (Returns (None, Some err), r') /\
      Current.SimpleJSON lib n r =
        Some (Returns (None, Some (fmt_Errorf "Json error" err)), r')
  end.
Proof.
  intros H.
  assert (Hl : exists c0, Current.loadContent lib n r = Some (Returns (c0, e), r') /\
                          (e = None -> c0 = c)).
  { rewrite Current_Content_loadContent in H.
    destruct (Current.loadContent lib n r) as [[[[c0 [e0|]]|m] r0]|]; simplify_eq;
      eexists; (split; [reflexivity|]); intros ?; simplify_eq; done. }
  destruct Hl as (c0 & Hl & Hc0).
  destruct e as [err|].
  - unfold Current.Text, Current.JSON, Current.SimpleJSON. rewrite Hl.
    apply Current_Content_error in H as (-> & _). done.
  - rewrite (Hc0 eq_refl) in Hl.
    destruct (Current_loadContent_ok lib n r c r' Hl) as (data & -> & _).
    exists data. unfold Current.Text, Current.JSON, Current.SimpleJSON. rewrite Hl.
    rewrite list_byte_of_string_of_list_byte. done.
Qed.

Lemma Current_accessors_agree_witness :
  (exists data,
      Some (bytes_of "true false") = Some data /\
      Current.Text stored_library 2 fresh_two =
        Some (Returns (string_of_list_byte data, None), loaded_two) /\
      list_byte_of_string (string_of_list_byte data) = data /\
      Current.JSON stored_library 2 fresh_two =
        Some (Returns (Current.unmarshal stored_library (Some data)), loaded_two) /\
      Current.SimpleJSON stored_library 2 fresh_two =
        Some (Returns (Current.parse stored_library (Some data)), loaded_two)) /\
  Current.unmarshal stored_library (Some (bytes_of "true false")) =
    (None, Some (json_SyntaxError "invalid character")) /\
  Current.parse stored_library (Some (bytes_of "true false")) = (Some (JBool true), None).
Proof.
  split; [|split; reflexivity].
  apply (Current_accessors_agree stored_library 2 fresh_two
           (Some (bytes_of "true false")) None loaded_two).
  vm_compute; reflexivity.
Defined.

(** X3 (response.go). A body that is not JSON does no harm to the cache:
    when Content() returns bytes that json.Unmarshal rejects, JSON returns
    its error; when simplejson.NewJson rejects them, SimpleJSON returns its
    error; each leaves the same response behind as Content(), and Content()
    on it still returns the bytes. *)
Theorem Current_parse_error_keeps_bytes (lib : Library) n r c r' :
  Current.Content lib n r = Some (Returns (Some c, None), r') ->
  (forall e, encoding_json_Unmarshal lib c = inr e ->
             Current.JSON lib n r = Some (Returns (None, Some e), r')) /\
  (forall e, json_Unmarshal lib c = inr e ->
             Current.SimpleJSON lib n r = Some (Returns (None, Some e), r')) /\
  forall m, Current.Content lib m r' = Some (Returns (Some c, None), r').
Proof.
  intros HC.
  destruct (Current_Content_state lib n r _ r' HC) as [res0 Hl].
  destruct (Current_Content_ok lib n r (Some c) r' HC) as (data & Hdata & Hd).
  injection Hdata as <-.
  assert (Hres : res0 = Returns (Some c, None)).
  { rewrite Current_Content_loadContent, Hl in HC.
    destruct res0 as [[c0 [e0|]]|m]; simplify_eq; reflexivity. }
  subst res0.
  unfold Current.JSON, Current.SimpleJSON, Current.parse, Current.unmarshal. rewrite Hl.
  cbn [default from_option id].
  split; [intros e He; rewrite He; reflexivity|].
  split; [intros e He; rewrite He; reflexivity|].
  intros m. exact (proj1 (Current_served_from_cache lib m r' c Hd)).
Qed.

Lemma Current_parse_error_keeps_bytes_witness :
  Current.JSON stored_library 2 fresh_two =
    Some (Returns (None, Some (json_SyntaxError "invalid character")), loaded_two) /\
  Current.SimpleJSON stored_library 2 fresh_a =
    Some (Returns (None, Some (json_SyntaxError "invalid character")), loaded_a) /\
  (forall m, Current.Content stored_library m loaded_two =
             Some (Returns (Some (bytes_of "true false"), None), loaded_two)).
Proof.
  destruct (Current_parse_error_keeps_bytes stored_library 2 fresh_two
              (bytes_of "true false") loaded_two) as (HJ & _ & HC);
    [vm_compute; reflexivity|].
  destruct (Current_parse_error_keeps_bytes stored_library 2 fresh_a
              (bytes_of "a") loaded_a) as (_ & HS & _);
    [vm_compute; reflexivity|].
  split; [apply HJ; vm_compute; reflexivity|].
  split; [apply HS; vm_compute; reflexivity|exact HC].
Defined.

(** ** response.go: SaveContent *)

(** X4 (response.go). When SaveContent returns no error, the file at the
    path holds exactly the decoded bytes, whatever it held before: the
    bytes that Content() with the same budget returns on the same response
    and that Content() returns afterwards; no other file is touched. *)
Theorem Current_SaveContent_writes_Content (lib : Library) path n r fs r' fs' :
  Current.SaveContent lib path n (r, fs) = Some (Returns None, (r', fs')) ->
  exists data,
    files fs' !! path = Some data /\
    Current.Content lib n r = Some (Returns (Some data, None), r') /\
    (forall m, Current.Content lib m r' = Some (Returns (Some data, None), r')) /\
    (forall other, other <> path -> files fs' !! other = files fs !! other).
Proof.
  intros H.
  destruct (Current_SaveContent_file lib path n r fs r' fs' H) as (data & Hfile & Hd & Hc).
  exists data. split; [exact Hfile|]. split; [|split; [exact Hc|]].
  - unfold Current.SaveContent, os_Create in H.
    destruct (decide (path ∈ read_only fs)); [simplify_eq|].
    rewrite Current_Content_loadContent.
    destruct (Current.loadContent lib n r) as [[[[c [e|]]|m] r1]|] eqn:Hl; simplify_eq.
    destruct (File_Write path (default [] c) _) as [[k werr] fs2]. simplify_eq.
    apply Current_loadContent_ok in Hl as (data' & -> & Hd'). congruence.
  - intros other Hother.
    unfold Current.SaveContent, os_Create, File_Write in H.
    destruct (decide (path ∈ read_only fs)); [simplify_eq|].
    destruct (Current.loadContent lib n r) as [[[[c [e|]]|m] r1]|] eqn:Hl; simplify_eq.
    cbn [files free_space read_only] in H.
    destruct (free_space fs) as [k|]; [destruct (k <? length (default [] c))%nat|];
      simplify_eq; cbn [files]; rewrite !lookup_insert_ne by done; reflexivity.
Qed.

Lemma Current_SaveContent_writes_Content_witness :
  exists fs',
    Current.SaveContent stored_library "/tmp/x" 13
      (Current.NewResponse gzipped, disk_with_old_file) =
      Some (Returns None,
            (state_after (Current.Content stored_library 13 (Current.NewResponse gzipped))
                         (Current.NewResponse gzipped), fs')) /\
    files fs' !! "/tmp/x"%string = Some (bytes_of "AB").
Proof.
  eexists. split; [vm_compute; reflexivity|].
  match goal with
  | |- files ?fs' !! _ = _ =>
      destruct (Current_SaveContent_writes_Content stored_library "/tmp/x" 13
                  (Current.NewResponse gzipped) disk_with_old_file
                  (state_after (Current.Content stored_library 13
                                  (Current.NewResponse gzipped))
                               (Current.NewResponse gzipped)) fs')
        as (data & Hfile & HC & _); [vm_compute; reflexivity|]
  end.
  rewrite Hfile. vm_compute in HC. injection HC as <-. reflexivity.
Defined.

(** X5 (response.go). SaveContent creates the file before it decodes: when
    the decoding fails, SaveContent returns the error of the decoding and
    the file at the path is left empty, whatever it held before. *)
Theorem Current_SaveContent_failed_decoding (lib : Library) path n r fs c e r' :
  path ∉ read_only fs ->
  Current.Content lib n r = Some (Returns (c, Some e), r') ->
  exists fs',
    Current.SaveContent lib path n (r, fs) = Some (Returns (Some e), (r', fs')) /\
    files fs' !! path = Some [] /\
    (forall other, other <> path -> files fs' !! other = files fs !! other).
Proof.
  intros Hpath HC. unfold Current.SaveContent, os_Create.
  destruct (decide (path ∈ read_only fs)); [done|].
  rewrite Current_Content_loadContent in HC.
  destruct (Current.loadContent lib n r) as [[[[c0 [e0|]]|m] r0]|] eqn:Hl; simplify_eq.
  eexists. split; [reflexivity|]. cbn [files]. split.
  - apply lookup_insert_eq.
  - intros other Hother. rewrite lookup_insert_ne by done. reflexivity.
Qed.

Lemma Current_SaveContent_failed_decoding_witness :
  exists fs',
    Current.SaveContent stored_library "/tmp/x" 3
      (Current.NewResponse interrupted, disk_with_old_file) =
      Some (Returns (Some reset_by_peer),
            (state_after (Current.Content stored_library 3 (Current.NewResponse interrupted))
                         (Current.NewResponse interrupted), fs')) /\
    files fs' !! "/tmp/x"%string = Some [] /\
    (forall other, other <> "/tmp/x"%string ->
                   files fs' !! other = files disk_with_old_file !! other).
Proof.
  apply (Current_SaveContent_failed_decoding stored_library "/tmp/x" 3
           (Current.NewResponse interrupted) disk_with_old_file None reset_by_peer).
  - vm_compute. intros H. discriminate H.
  - vm_compute; reflexivity.
Defined.

(** ** response.go: Read, Close and the body *)



(** X7 (response.go). When the body breaks off while it is read as it is
    (no gzip, no deflate), Content() returns the error of the body and no
    bytes, the bytes that had arrived are dropped, nothing is cached and the
    body is closed; the next Content() therefore reads the closed body and
    returns the error of that, not the first error. *)
Theorem Current_read_failure (lib : Library) n r s e :
  Current.content r = None -> Current.stream r = Some s ->
  encoding_of (Header_Get (http.Header (Current.embedded r)) "Content-Encoding") = None ->
  closed s = false -> failure s = Some e -> error_eqb_EOF e = false ->
  (length (pending s) < n)%nat ->
  exists r' r'' k,
    Current.Content lib n r = Some (Returns (None, Some e), r') /\
    Current.content r' = None /\
    Current.stream r' = Some (mkStream [] (Some e) true (reads s + S k) (S (closes s))) /\
    Current.Content lib n r' =
      Some (Returns (None, Some http_errReadOnClosedResBody), r'').
Proof.
  unfold Current.stream. intros Hc Hs Henc Hopen Hf He Hlen.
  destruct n as [|n]; [lia|].
  destruct (body_read_until_error (S n) 512 [] s Hopen ltac:(lia) Hlen) as [k Hk].
  set (s1 := mkStream [] (Some e) true (reads s + S k) (S (closes s))).
  assert (H1 : Current.Content lib (S n) r =
               Some (Returns (None, Some e), Current.with_Body s1 r)).
  { rewrite Current_Content_loadContent.
    unfold Current.loadContent, Current.loadContent_body, Current.select_reader.
    rewrite Hc, Henc, Hs. cbv beta match.
    unfold Current.ReadAll. rewrite Hs, Hk, Hf. cbn [default from_option id].
    rewrite He. cbn. rewrite He. cbn. reflexivity. }
  exists (Current.with_Body s1 r). eexists. exists k.
  split; [exact H1|]. split; [exact Hc|]. split; [reflexivity|].
  rewrite Current_Content_loadContent.
  unfold Current.loadContent, Current.loadContent_body, Current.select_reader.
  cbn [Current.content Current.with_Body Current.embedded http.Header http.Body
       http.with_Body].
  rewrite Hc, Henc. cbv beta match.
  unfold Current.ReadAll.
  cbn [Current.content Current.with_Body Current.embedded http.Header http.Body
       http.with_Body].
  rewrite (closed_read_until_error n 512 [] s1 eq_refl). cbn. reflexivity.
Qed.

Lemma Current_read_failure_witness :
  exists r' r'' k,
    Current.Content stored_library 3 (Current.NewResponse interrupted) =
      Some (Returns (None, Some reset_by_peer), r') /\
    Current.content r' = None /\
    Current.stream r' = Some (mkStream [] (Some reset_by_peer) true (0 + S k) 1) /\
    Current.Content stored_library 3 r' =
      Some (Returns (None, Some http_errReadOnClosedResBody), r'').
Proof.
  apply (Current_read_failure stored_library 3 (Current.NewResponse interrupted)
           (mkStream (bytes_of "ab") (Some reset_by_peer) false 0 0) reset_by_peer);
    first [reflexivity | vm_compute; lia].
Defined.

Lemma body_loops_keep_open (lib : Library) :
  (forall budget c acc s res s',
      read_header body_Read budget c acc s = Some (res, s') ->
      (closed s', closes s', failure s') = (closed s, closes s, failure s)) /\
  (forall budget bufsz acc s res s',
      read_until_error body_Read budget bufsz acc s = Some (res, s') ->
      (closed s', closes s', failure s') = (closed s, closes s, failure s)) /\
  (forall c buffered budget s res s',
      inflate_until_error body_Read lib c buffered budget s = Some (res, s') ->
      (closed s', closes s', failure s') = (closed s, closes s, failure s)).
Proof.
  assert (H1 := read_header_preserves body_Read
                  (fun s => (closed s, closes s, failure s)) body_Read_keeps).
  assert (H2 := read_until_error_preserves body_Read
                  (fun s => (closed s, closes s, failure s)) body_Read_keeps).
  split; [exact H1|]. split; [exact H2|].
  intros c buffered budget s res s' H. unfold inflate_until_error in H.
  destruct (read_until_error body_Read budget 4096 [] s)
    as [[[[rest e]|m] s1]|] eqn:Hr; simplify_eq.
  - destruct (inflate lib c (buffered ++ rest)) as [out status].
    simplify_eq. exact (H2 _ _ _ _ _ _ Hr).
  - exact (H2 _ _ _ _ _ _ Hr).
Qed.

(** X8 (response.go). With gzip or deflate announced, loadContent never
    closes r.Body: however Content() ends (bytes, error or panic), the
    body is as open or closed afterwards as it was before, and the number
    of Close calls it has seen is the same. *)
Theorem Current_decompressing_leaves_body_open (lib : Library) n r s c res r' :
  Current.content r = None -> Current.stream r = Some s ->
  encoding_of (Header_Get (http.Header (Current.embedded r)) "Content-Encoding")
    = Some c ->
  Current.Content lib n r = Some (res, r') ->
  exists s',
    Current.stream r' = Some s' /\ closed s' = closed s /\ closes s' = closes s.
Proof.
  unfold Current.stream. intros Hc Hs Henc HC.
  destruct (body_loops_keep_open lib) as (Hfull & Huntil & Hinf).
  apply Current_Content_state in HC as [res0 Hl].
  unfold Current.loadContent, Current.loadContent_body, Current.select_reader,
    Current.new_decompressor, NewReader in Hl.
  rewrite Hc, Henc, Hs in Hl.
  destruct (read_header body_Read n c [] s)
    as [[[[buffered|e]|m] s1]|] eqn:Hrf; [| | |discriminate Hl];
    pose proof (Hfull _ _ _ _ _ _ Hrf) as Hk1.
  - unfold Current.ReadAll in Hl.
    cbn [Current.embedded Current.with_Body http.Body http.with_Body] in Hl.
    destruct (inflate_until_error body_Read lib c buffered n s1)
      as [[[[out e]|m] s2]|] eqn:Hi; [| |discriminate Hl];
      pose proof (Hinf _ _ _ _ _ _ Hi) as Hk2;
      [destruct (error_eqb_EOF e) eqn:He|]; cbn in Hl; rewrite ?He in Hl; cbn in Hl;
      simplify_eq; eexists; (split; [reflexivity|]); split; congruence.
  - destruct c; cbn in Hl; simplify_eq; eexists; (split; [reflexivity|]);
      split; congruence.
  - cbn in Hl. simplify_eq. eexists. split; [reflexivity|]. split; congruence.
Qed.

Lemma Current_decompressing_leaves_body_open_witness :
  exists s',
    Current.stream
      (state_after (Current.Content stored_library 13 (Current.NewResponse gzipped))
                   (Current.NewResponse gzipped)) = Some s' /\
    closed s' = false /\ closes s' = 0%nat.
Proof.
  apply (Current_decompressing_leaves_body_open stored_library 13
           (Current.NewResponse gzipped) (open_stream gzip_member) Gzip
           (Returns (Some (bytes_of "AB"), None)));
    vm_compute; reflexivity.
Defined.

(** X9 (response.go). Whenever the body announced as gzip or deflate starts
    with bytes that NewReader refuses as a header (for gzip: the magic
    number, the method, a name or comment without end, the header
    checksum; for zlib: the method, the window, the check bits, a preset
    dictionary other than the nil one), Content() panics with a nil pointer
    dereference (the deferred Close meets a nil reader) and the body stays
    open. *)
Theorem Current_rejected_header_panics (lib : Library) n r s c e :
  Current.content r = None -> Current.stream r = Some s ->
  encoding_of (Header_Get (http.Header (Current.embedded r)) "Content-Encoding")
    = Some c ->
  closed s = false ->
  parse_header c (take 4096 (pending s)) = header_bad e ->
  exists r',
    Current.Content lib (S n) r = Some (Panics nil_dereference, r') /\
    closed <$> Current.stream r' = Some false.
Proof.
  unfold Current.stream. intros Hc Hs Henc Hopen Hhdr.
  rewrite Current_Content_loadContent.
  unfold Current.loadContent, Current.loadContent_body, Current.select_reader,
    Current.new_decompressor, NewReader.
  rewrite Hc, Henc, Hs. cbv beta match.
  rewrite (body_read_header_bad n _ s e Hopen Hhdr). cbv beta match.
  destruct c; cbn; eexists; split; reflexivity.
Qed.

Lemma Current_rejected_header_panics_witness :
  (exists r',
    Current.Content stored_library 1 (Current.NewResponse (mislabelled "deflate")) =
      Some (Panics nil_dereference, r') /\
    closed <$> Current.stream r' = Some false) /\
  (exists r',
    Current.Content stored_library 1 (Current.NewResponse deflated_with_other_dictionary) =
      Some (Panics nil_dereference, r') /\
    closed <$> Current.stream r' = Some false) /\
  (exists r',
    Current.Content stored_library 1 (Current.NewResponse gzipped_with_wrong_checksum) =
      Some (Panics nil_dereference, r') /\
    closed <$> Current.stream r' = Some false).
Proof.
  split; [|split].
  - apply (Current_rejected_header_panics stored_library 0
             (Current.NewResponse (mislabelled "deflate")) (open_stream not_compressed)
             Deflate zlib_ErrHeader);
      first [reflexivity | vm_compute; lia].
  - apply (Current_rejected_header_panics stored_library 0
             (Current.NewResponse deflated_with_other_dictionary)
             (open_stream ([x78; x20; x00; x00; x00; x02] ++ bytes_of "AB"))
             Deflate zlib_ErrDictionary);
      first [reflexivity | vm_compute; lia].
  - apply (Current_rejected_header_panics stored_library 0
             (Current.NewResponse gzipped_with_wrong_checksum)
             (open_stream ([x1f; x8b; x08; x02; x00; x00; x00; x00; x00; x03; x00; x00]
                           ++ bytes_of "AB"))
             Gzip gzip_ErrHeader);
      first [reflexivity | vm_compute; lia].
Defined.

(** X10 (response.go). No method changes the status line, the status code,
    the headers or the declared length of the response: after Content,
    Text, JSON, SimpleJSON, Read, Close or SaveContent they are what they
    were, and so is the answer of Ok(). *)
Theorem Current_metadata_is_kept (lib : Library) n r :
  (forall res r', Current.Content lib n r = Some (res, r') ->
                  metadata (Current.embedded r') = metadata (Current.embedded r)) /\
  (forall res r', Current.Text lib n r = Some (res, r') ->
                  metadata (Current.embedded r') = metadata (Current.embedded r)) /\
  (forall res r', Current.JSON lib n r = Some (res, r') ->
                  metadata (Current.embedded r') = metadata (Current.embedded r)) /\
  (forall res r', Current.SimpleJSON lib n r = Some (res, r') ->
                  metadata (Current.embedded r') = metadata (Current.embedded r)) /\
  (forall k res r', Current.Read lib n k r = Some (res, r') ->
                    metadata (Current.embedded r') = metadata (Current.embedded r)) /\
  (forall res r', Current.Close lib n r = Some (res, r') ->
                  metadata (Current.embedded r') = metadata (Current.embedded r)) /\
  (forall path fs res r' fs',
      Current.SaveContent lib path n (r, fs) = Some (res, (r', fs')) ->
      metadata (Current.embedded r') = metadata (Current.embedded r)) /\
  (forall r', metadata (Current.embedded r') = metadata (Current.embedded r) ->
              Current.Ok r' = Current.Ok r).
Proof.
  assert (Hsel : forall m r0 rd res r',
             Current.select_reader m r0 = Some (rd, res, r') ->
             metadata (Current.embedded r') = metadata (Current.embedded r0)).
  { intros m r0 rd res r' H. unfold Current.select_reader, Current.new_decompressor in H.
    repeat case_match; simplify_eq; reflexivity. }
  assert (Hall : forall rd m r0 res r',
             Current.ReadAll lib rd m r0 = Some (res, r') ->
             metadata (Current.embedded r') = metadata (Current.embedded r0)).
  { intros rd m r0 res r' H. unfold Current.ReadAll in H.
    repeat case_match; simplify_eq; reflexivity. }
  assert (Hcl : forall rd r0 res r',
             Current.reader_Close rd r0 = (res, r') ->
             metadata (Current.embedded r') = metadata (Current.embedded r0)).
  { intros rd r0 res r' H. unfold Current.reader_Close in H.
    repeat case_match; simplify_eq; reflexivity. }
  assert (Hbody : forall m r0 rd res r',
             Current.loadContent_body lib m r0 = Some (rd, res, r') ->
             metadata (Current.embedded r') = metadata (Current.embedded r0)).
  { intros m r0 rd res r' H. unfold Current.loadContent_body in H.
    destruct (Current.select_reader m r0) as [[[rd0 [[err|]|p]] r1]|] eqn:Hs;
      [| | |discriminate H]; pose proof (Hsel _ _ _ _ _ Hs) as H1.
    - injection H as <- <- <-. exact H1.
    - destruct (Current.ReadAll lib rd0 m r1) as [[[[data [err|]]|p] r2]|] eqn:Ha;
        [| | |discriminate H]; pose proof (Hall _ _ _ _ _ Ha) as H2.
      + destruct (negb (error_eqb_EOF err)); injection H as <- <- <-;
          cbn [Current.embedded Current.with_content]; congruence.
      + injection H as <- <- <-. cbn [Current.embedded Current.with_content]. congruence.
      + injection H as <- <- <-. congruence.
    - injection H as <- <- <-. exact H1. }
  assert (Hload : forall m r0 res r',
             Current.loadContent lib m r0 = Some (res, r') ->
             metadata (Current.embedded r') = metadata (Current.embedded r0)).
  { intros m r0 res r' H. unfold Current.loadContent in H.
    destruct (Current.content r0); [simplify_eq; reflexivity|].
    destruct (Current.loadContent_body lib m r0) as [[[rd res1] r1]|] eqn:Hb;
      [|discriminate H].
    pose proof (Hbody _ _ _ _ _ Hb) as H1.
    destruct (Current.reader_Close rd r1) as [[o|p] r2] eqn:Hc;
      pose proof (Hcl _ _ _ _ Hc) as H2; injection H as <- <-; congruence. }
  assert (Hread : forall m k r0 res r',
             Current.Read lib m k r0 = Some (res, r') ->
             metadata (Current.embedded r') = metadata (Current.embedded r0)).
  { intros m k r0 res r' H. unfold Current.Read in H.
    destruct (Current.loadContent lib m r0) as [[[[c [e|]]|p] r1]|] eqn:Hl;
      simplify_eq; exact (Hload _ _ _ _ Hl). }
  split; [|split; [|split; [|split; [|split; [|split; [|split]]]]]].
  - intros res r' H. unfold Current.Content in H.
    destruct (Current.loadContent lib n r) as [[[[c [e|]]|p] r1]|] eqn:Hl;
      simplify_eq; exact (Hload _ _ _ _ Hl).
  - intros res r' H. unfold Current.Text in H.
    destruct (Current.loadContent lib n r) as [[[[c [e|]]|p] r1]|] eqn:Hl;
      simplify_eq; exact (Hload _ _ _ _ Hl).
  - intros res r' H. unfold Current.JSON in H.
    destruct (Current.loadContent lib n r) as [[[[c [e|]]|p] r1]|] eqn:Hl;
      simplify_eq; exact (Hload _ _ _ _ Hl).
  - intros res r' H. unfold Current.SimpleJSON in H.
    destruct (Current.loadContent lib n r) as [[[[c [e|]]|p] r1]|] eqn:Hl;
      simplify_eq; exact (Hload _ _ _ _ Hl).
  - intros k res r' H. exact (Hread _ _ _ _ _ H).
  - intros res r' H. unfold Current.Close in H.
    destruct (read_until_error (Current.Read lib n) n 8192 [] r)
      as [[[[bs e]|p] r1]|] eqn:Hr; simplify_eq.
    + pose proof (read_until_error_preserves (Current.Read lib n)
                    (fun r0 => metadata (Current.embedded r0))
                    (fun k r0 res0 r0' => Hread n k r0 res0 r0') _ _ _ _ _ _ Hr) as Hk.
      cbv beta in Hk.
      destruct (error_eqb_EOF e); [|injection H as <- <-; exact Hk].
      destruct (http.Body (Current.embedded r1)); injection H as <- <-; exact Hk.
    + exact (read_until_error_preserves (Current.Read lib n)
               (fun r0 => metadata (Current.embedded r0))
               (fun k r0 res0 r0' => Hread n k r0 res0 r0') _ _ _ _ _ _ Hr).
  - intros path fs res r' fs' H. unfold Current.SaveContent in H.
    destruct (os_Create path fs) as [[err|] fs1]; [simplify_eq; reflexivity|].
    destruct (Current.loadContent lib n r) as [[[[c [e|]]|p] r1]|] eqn:Hl;
      [| | |discriminate H].
    + simplify_eq. exact (Hload _ _ _ _ Hl).
    + destruct (File_Write path (default [] c) fs1) as [[k werr] fs2]. simplify_eq.
      exact (Hload _ _ _ _ Hl).
    + simplify_eq. exact (Hload _ _ _ _ Hl).
  - intros r' H. unfold Current.Ok. unfold metadata in H. injection H as _ Hcode _ _.
    rewrite Hcode. reflexivity.
Qed.

Lemma Current_metadata_is_kept_witness :
  metadata (Current.embedded loaded_a) = metadata (Current.embedded fresh_a) /\
  Current.Ok loaded_a = Current.Ok fresh_a.
Proof.
  destruct (Current_metadata_is_kept stored_library 2 fresh_a)
    as (HC & _ & _ & _ & _ & _ & _ & HOk).
  assert (H : metadata (Current.embedded loaded_a) = metadata (Current.embedded fresh_a)).
  { apply (HC (Returns (Some (bytes_of "a"), None)) loaded_a). vm_compute; reflexivity. }
  split; [exact H|exact (HOk loaded_a H)].
Defined.

(** ** The earlier version: Close *)

Lemma Legacy_Close_open budget r s :
  Legacy.internalError r = None -> Legacy.stream r = Some s ->
  closed s = false -> (length (pending s) < budget)%nat ->
  exists k,
    Legacy.Close budget r =
    Some (Returns None,
          Legacy.with_Body (mkStream [] (failure s) true (reads s + S k) (S (closes s))) r).
Proof.
  intros He Hs Hopen Hlen.
  assert (Hbuf : (0 < 8192)%nat) by (apply Nat.ltb_lt; vm_compute; reflexivity).
  destruct (body_read_until_error budget 8192 [] s Hopen Hbuf Hlen) as [k Hk].
  exists k. unfold Legacy.Close. rewrite He.
  rewrite (Legacy_read_until_error false budget 8192 [] r s He Hs), Hk.
  unfold Legacy.Body_Close.
  pose proof (Legacy_with_Body_stream r s
                (mkStream [] (failure s) false (reads s + S k) (closes s)) Hs) as Hs1.
  unfold Legacy.stream in Hs1.
  destruct (Legacy.RawResponse (Legacy.with_Body _ r)) as [raw1|] eqn:Hraw1; [|done].
  cbn in Hs1. rewrite Hs1. cbn [Stream_Close pending failure closed reads closes].
  rewrite (Legacy_with_Body_twice r s _ _ Hs). reflexivity.
Qed.



(** ** The earlier version: what the methods keep *)

Section LegacyKeeps.
Variable lib : Library.

Lemma Legacy_Read_keeps n r res r' :
  Legacy.Read n r = (res, r') -> fixed_part r' = fixed_part r.
Proof.
  unfold Legacy.Read. intros H. repeat case_match; simplify_eq; reflexivity.
Qed.

Lemma Legacy_Read_source_keeps strict n r res r' :
  Legacy.Read_source strict n r = Some (res, r') -> fixed_part r' = fixed_part r.
Proof.
  unfold Legacy.Read_source. intros H.
  destruct (Legacy.Read n r) as [[[[cnt bs] e]|m] r1] eqn:Hr;
    pose proof (Legacy_Read_keeps _ _ _ _ Hr) as Hk.
  - destruct (strict && (cnt <? 0)%Z); injection H as <- <-; exact Hk.
  - injection H as <- <-. exact Hk.
Qed.

Lemma Legacy_Body_Close_keeps r res r' :
  Legacy.Body_Close r = (res, r') -> fixed_part r' = fixed_part r.
Proof.
  unfold Legacy.Body_Close. intros H. repeat case_match; simplify_eq; reflexivity.
Qed.

Lemma Legacy_Close_keeps n r res r' :
  Legacy.Close n r = Some (res, r') -> fixed_part r' = fixed_part r.
Proof.
  unfold Legacy.Close. intros H.
  destruct (Legacy.internalError r); [injection H as <- <-; reflexivity|].
  destruct (read_until_error (Legacy.Read_source false) n 8192 [] r)
    as [[[x|m] r1]|] eqn:Hr; [| |discriminate H];
    pose proof (read_until_error_preserves (Legacy.Read_source false) fixed_part
                  (Legacy_Read_source_keeps false) _ _ _ _ _ _ Hr) as Hk.
  - destruct (Legacy.Body_Close r1) as [res1 r2] eqn:Hb.
    pose proof (Legacy_Body_Close_keeps _ _ _ Hb) as Hk2.
    injection H as <- <-. congruence.
  - injection H as <- <-. exact Hk.
Qed.

Lemma Legacy_select_reader_keeps n r rd res r' :
  Legacy.select_reader n r = Some (rd, res, r') -> fixed_part r' = fixed_part r.
Proof.
  unfold Legacy.select_reader, Legacy.new_decompressor, NewReader. intros H.
  destruct (encoding_of _) as [c|]; [|injection H as <- <- <-; reflexivity].
  destruct (read_header (Legacy.Read_source false) n c [] r)
    as [[[[buffered|e]|m] r1]|] eqn:Hr; [| | |discriminate H];
    pose proof (read_header_preserves (Legacy.Read_source false) fixed_part
                  (Legacy_Read_source_keeps false) _ _ _ _ _ _ Hr) as Hk.
  - injection H as <- <- <-. exact Hk.
  - injection H as <- <- <-. exact Hk.
  - injection H as <- <- <-. exact Hk.
Qed.

Lemma Legacy_copy_to_content_keeps rd n r res r' :
  Legacy.copy_to_content lib rd n r = Some (res, r') -> fixed_part r' = fixed_part r.
Proof.
  unfold Legacy.copy_to_content, inflate_until_error. intros H.
  destruct rd as [| | |c buffered]; try (injection H as <- <-; reflexivity).
  - destruct (read_until_error (Legacy.Read_source true) n 512 [] r)
      as [[[[data e]|m] r1]|] eqn:Hr; [| |discriminate H];
      pose proof (read_until_error_preserves (Legacy.Read_source true) fixed_part
                    (Legacy_Read_source_keeps true) _ _ _ _ _ _ Hr) as Hk;
      injection H as <- <-; exact Hk.
  - destruct (read_until_error (Legacy.Read_source false) n 4096 [] r)
      as [[[[rest e]|m] r1]|] eqn:Hr; [| |discriminate H];
      pose proof (read_until_error_preserves (Legacy.Read_source false) fixed_part
                    (Legacy_Read_source_keeps false) _ _ _ _ _ _ Hr) as Hk.
    + destruct (inflate lib c (buffered ++ rest)) as [out status].
      injection H as <- <-. exact Hk.
    + injection H as <- <-. exact Hk.
Qed.

Lemma Legacy_loadContent_keeps n r res r' :
  Legacy.loadContent lib n r = Some (res, r') -> fixed_part r' = fixed_part r.
Proof.
  unfold Legacy.loadContent. intros H.
  destruct (Legacy.internalError r); [injection H as <- <-; reflexivity|].
  destruct (Legacy.content r) as [buf|]; [|injection H as <- <-; reflexivity].
  destruct (negb (length buf =? 0)%nat); [injection H as <- <-; reflexivity|].
  destruct (Legacy.RawResponse r) as [raw|]; [|injection H as <- <-; reflexivity].
  destruct (http.ContentLength raw =? 0)%Z; [injection H as <- <-; reflexivity|].
  destruct (if (0 <? http.ContentLength raw)%Z
            then Buffer_Grow (http.ContentLength raw) else Returns tt);
    [|injection H as <- <-; reflexivity].
  destruct (Legacy.loadContent_body lib n r) as [[[rd res1] r1]|] eqn:Hb;
    [|discriminate H].
  assert (H1 : fixed_part r1 = fixed_part r).
  { unfold Legacy.loadContent_body in Hb.
    destruct (Legacy.select_reader n r) as [[[rd0 [[err|]|p]] r0]|] eqn:Hs;
      [| | |discriminate Hb]; pose proof (Legacy_select_reader_keeps _ _ _ _ _ Hs) as Hk.
    - injection Hb as <- <- <-. exact Hk.
    - destruct (Legacy.copy_to_content lib rd0 n r0) as [[[[err|]|p] r2]|] eqn:Hc;
        [| | |discriminate Hb];
        pose proof (Legacy_copy_to_content_keeps _ _ _ _ _ Hc) as Hk2.
      + destruct (negb (error_eqb_EOF err)); injection Hb as <- <- <-; congruence.
      + injection Hb as <- <- <-. congruence.
      + injection Hb as <- <- <-. congruence.
    - injection Hb as <- <- <-. exact Hk. }
  unfold Legacy.loadContent_deferred in H.
  destruct (Legacy.Close n r1) as [[[o|p] r2]|] eqn:Hc; [| |discriminate H];
    pose proof (Legacy_Close_keeps _ _ _ _ Hc) as H2.
  - assert (H3 : forall res3 r3, Legacy.reader_Close rd n r2 = Some (res3, r3) ->
                                 fixed_part r3 = fixed_part r2).
    { intros res3 r3 Hrc. unfold Legacy.reader_Close in Hrc.
      destruct rd; try (injection Hrc as <- <-; reflexivity).
      exact (Legacy_Close_keeps _ _ _ _ Hrc). }
    destruct (Legacy.reader_Close rd n r2) as [[[o3|p3] r3]|] eqn:Hrc; [| |discriminate H];
      pose proof (H3 _ _ eq_refl) as H4; injection H as <- <-; congruence.
  - injection H as <- <-. congruence.
Qed.

Lemma Legacy_Content_keeps n r res r' :
  Legacy.Content lib n r = Some (res, r') -> fixed_part r' = fixed_part r.
Proof.
  unfold Legacy.Content. intros H.
  destruct (Legacy.loadContent lib n r) as [[[[e|]|m] r1]|] eqn:Hl; [| | |discriminate H];
    pose proof (Legacy_loadContent_keeps _ _ _ _ Hl) as Hk.
  - injection H as <- <-. exact Hk.
  - destruct (Legacy.content r1) as [buf|]; [destruct (length buf =? 0)%nat|];
      injection H as <- <-; exact Hk.
  - injection H as <- <-. exact Hk.
Qed.

Lemma Legacy_copy_to_file_keeps path budget :
  forall r fs res r' fs',
    Legacy.copy_to_file budget path (r, fs) = Some (res, (r', fs')) ->
    fixed_part r' = fixed_part r.
Proof.
  induction budget as [|budget IH]; intros r fs res r' fs' H; [discriminate H|].
  cbn [Legacy.copy_to_file] in H.
  destruct (Legacy.Read 32768 r) as [[[[cnt bs] er]|m] r1] eqn:Hr;
    pose proof (Legacy_Read_keeps _ _ _ _ Hr) as Hk.
  - destruct (if (0 <? cnt)%Z then File_Write path bs fs else (0%nat, None, fs))
      as [[k ew] fs1].
    destruct ew as [e|]; [injection H as <- <- <-; exact Hk|].
    destruct er as [e|]; [injection H as <- <- <-; exact Hk|].
    rewrite (IH _ _ _ _ _ H). exact Hk.
  - injection H as <- <- <-. exact Hk.
Qed.
End LegacyKeeps.

(** X12 (earlier version). Content, Text, Read, Close and SaveContent
    change neither the status line, the status code, the headers nor the
    recorded error, so that Ok() answers after them as before; Json changes
    nothing of these either unless the Content() inside it returns an
    error, which it records. *)
Theorem Legacy_fixed_part_is_kept (lib : Library) n r :
  (forall res r', Legacy.Content lib n r = Some (res, r') ->
                  fixed_part r' = fixed_part r) /\
  (forall res r', Legacy.Text lib n r = Some (res, r') ->
                  fixed_part r' = fixed_part r) /\
  (forall k res r', Legacy.Read k r = (res, r') -> fixed_part r' = fixed_part r) /\
  (forall res r', Legacy.Close n r = Some (res, r') -> fixed_part r' = fixed_part r) /\
  (forall path fs res r' fs',
      Legacy.SaveContent path n (r, fs) = Some (res, (r', fs')) ->
      fixed_part r' = fixed_part r) /\
  (forall res r', Legacy.Json lib n r = Some (res, r') ->
                  fixed_part r' = fixed_part r \/
                  exists c err r1,
                    Legacy.Content lib n r = Some (Returns (c, Some err), r1) /\
                    r' = Legacy.with_internalError err r1) /\
  (forall r', fixed_part r' = fixed_part r -> Legacy.Ok r' = Legacy.Ok r).
Proof.
  split; [exact (Legacy_Content_keeps lib n r)|].
  split; [|split; [exact (fun k => Legacy_Read_keeps k r)|]].
  { intros res r' H. unfold Legacy.Text in H.
    destruct (Legacy.loadContent lib n r) as [[[[e|]|m] r1]|] eqn:Hl; [| | |discriminate H];
      pose proof (Legacy_loadContent_keeps lib _ _ _ _ Hl) as Hk;
      injection H as <- <-; exact Hk. }
  split; [exact (Legacy_Close_keeps n r)|].
  split; [|split].
  - intros path fs res r' fs' H. unfold Legacy.SaveContent in H.
    destruct (Legacy.internalError r); [injection H as <- <- <-; reflexivity|].
    destruct (os_Create path fs) as [[err|] fs1]; [injection H as <- <- <-; reflexivity|].
    assert (Hcopy : forall res1 r1 fs2,
               match Legacy.getContent r with
               | Panics m => Some (Panics m, (r, fs1))
               | Returns None => Legacy.copy_to_file n path (r, fs1)
               | Returns (Some buf) => Some (Legacy.content_WriteTo buf path (r, fs1))
               end = Some (res1, (r1, fs2)) -> fixed_part r1 = fixed_part r).
    { intros res1 r1 fs2 Hc.
      destruct (Legacy.getContent r) as [[buf|]|m].
      - unfold Legacy.content_WriteTo in Hc.
        destruct buf as [|b bs]; [injection Hc as <- <- <-; reflexivity|].
        destruct (File_Write path (b :: bs) fs1) as [[k [e|]] fs3];
          injection Hc as <- <- <-; reflexivity.
      - exact (Legacy_copy_to_file_keeps path n _ _ _ _ _ Hc).
      - injection Hc as <- <- <-. reflexivity. }
    destruct (match Legacy.getContent r with
              | Panics m => Some (Panics m, (r, fs1))
              | Returns None => Legacy.copy_to_file n path (r, fs1)
              | Returns (Some buf) => Some (Legacy.content_WriteTo buf path (r, fs1))
              end) as [[res1 [r1 fs2]]|] eqn:Hc; [|discriminate H].
    pose proof (Hcopy _ _ _ eq_refl) as H1.
    destruct (Legacy.Close n r1) as [[[o|p] r2]|] eqn:Hcl; [| |discriminate H];
      pose proof (Legacy_Close_keeps _ _ _ _ Hcl) as H2.
    + destruct res1 as [[err|]|m]; [destruct (negb (error_eqb_EOF err))| |];
        injection H as <- <- <-; congruence.
    + injection H as <- <- <-. congruence.
  - intros res r' H. unfold Legacy.Json in H.
    destruct (Legacy.internalError r); [injection H as <- <-; left; reflexivity|].
    destruct (Legacy.Content lib n r) as [[[[c [err|]]|m] r1]|] eqn:HC;
      [| | |discriminate H].
    + injection H as <- <-. right. eauto.
    + injection H as <- <-. left. exact (Legacy_Content_keeps lib _ _ _ _ HC).
    + injection H as <- <-. left. exact (Legacy_Content_keeps lib _ _ _ _ HC).
  - intros r' H. unfold Legacy.Ok. unfold fixed_part in H.
    injection H as _ Hcode _ Herr. rewrite Hcode, Herr. reflexivity.
Qed.

Lemma Legacy_fixed_part_is_kept_witness :
  fixed_part legacy_loaded_a = fixed_part (legacy_of (plain 200 "a")) /\
  Legacy.Ok legacy_loaded_a = true.
Proof.
  destruct (Legacy_fixed_part_is_kept stored_library 2 (legacy_of (plain 200 "a")))
    as (HC & _ & _ & _ & _ & _ & HOk).
  assert (H : fixed_part legacy_loaded_a = fixed_part (legacy_of (plain 200 "a"))).
  { apply (HC (Returns (Some (bytes_of "a"), None)) legacy_loaded_a).
    vm_compute; reflexivity. }
  split; [exact H|]. rewrite (HOk legacy_loaded_a H). reflexivity.
Defined.

(** ** The earlier version: the buffer *)

Lemma Legacy_buffer_is_served (lib : Library) m r b bs :
  Legacy.internalError r = None -> Legacy.content r = Some (b :: bs) ->
  Legacy.loadContent lib m r = Some (Returns None, r) /\
  Legacy.Content lib m r = Some (Returns (Some (b :: bs), None), r) /\
  Legacy.Text lib m r = Some (Returns (string_of_list_byte (b :: bs), None), r) /\
  Legacy.Json lib m r = Some (Returns (Legacy.parse lib (Some (b :: bs))), r).
Proof.
  intros He Hc.
  assert (Hl : Legacy.loadContent lib m r = Some (Returns None, r)).
  { unfold Legacy.loadContent. rewrite He, Hc. reflexivity. }
  assert (HC : Legacy.Content lib m r = Some (Returns (Some (b :: bs), None), r)).
  { unfold Legacy.Content. rewrite Hl, Hc. reflexivity. }
  split; [exact Hl|]. split; [exact HC|]. split.
  - unfold Legacy.Text. rewrite Hl, Hc. reflexivity.
  - unfold Legacy.Json. rewrite He, HC. reflexivity.
Qed.

Lemma Legacy_Content_bytes (lib : Library) n r data r' :
  Legacy.Content lib n r = Some (Returns (Some data, None), r') ->
  Legacy.internalError r = None /\ Legacy.internalError r' = None /\
  exists b bs, data = b :: bs /\ Legacy.content r' = Some (b :: bs).
Proof.
  intros H.
  assert (He : Legacy.internalError r = None).
  { destruct (Legacy.internalError r) as [e|] eqn:He; [|reflexivity].
    rewrite (proj1 (proj2 (proj2 (proj2 (proj2 (Legacy_guard lib r e He))))) n) in H.
    discriminate H. }
  pose proof (Legacy_Content_keeps lib _ _ _ _ H) as Hk. unfold fixed_part in Hk.
  injection Hk as _ _ _ Hk.
  apply Legacy_Content_ok in H as (buf & Hbuf & Hdata).
  split; [exact He|]. split; [congruence|].
  destruct buf as [|b bs]; [discriminate Hdata|].
  injection Hdata as ->. eauto.
Qed.

(** X13 (earlier version). Once Content() has returned bytes (a body that
    is not empty), every later Content, Text and Json on the response
    returns them again (as bytes, as a string, parsed) and leaves the
    response, its body included, untouched. *)
Theorem Legacy_Content_is_remembered (lib : Library) n r data r' :
  Legacy.Content lib n r = Some (Returns (Some data, None), r') ->
  forall m,
    Legacy.Content lib m r' = Some (Returns (Some data, None), r') /\
    Legacy.Text lib m r' = Some (Returns (string_of_list_byte data, None), r') /\
    Legacy.Json lib m r' = Some (Returns (Legacy.parse lib (Some data)), r').
Proof.
  intros H m.
  destruct (Legacy_Content_bytes lib n r data r' H) as (_ & He & b & bs & -> & Hc).
  exact (proj2 (Legacy_buffer_is_served lib m r' b bs He Hc)).
Qed.

Lemma Legacy_Content_is_remembered_witness :
  Legacy.Content stored_library 0 legacy_loaded_a =
    Some (Returns (Some (bytes_of "a"), None), legacy_loaded_a) /\
  Legacy.Text stored_library 0 legacy_loaded_a =
    Some (Returns (string_of_list_byte (bytes_of "a"), None), legacy_loaded_a) /\
  Legacy.Json stored_library 0 legacy_loaded_a =
    Some (Returns (Legacy.parse stored_library (Some (bytes_of "a"))), legacy_loaded_a).
Proof.
  apply (Legacy_Content_is_remembered stored_library 2 (legacy_of (plain 200 "a"))
           (bytes_of "a") legacy_loaded_a).
  vm_compute; reflexivity.
Defined.

(** X14 (earlier version). When the declared length is zero (and nothing
    is buffered, no error recorded), Content returns (nil, nil), Text the
    empty string and Json what the parser says of the empty document,
    without reading or closing the body: the response is left exactly as
    it was, whatever the body holds. *)
Theorem Legacy_declared_empty_is_not_read (lib : Library) n r raw :
  Legacy.internalError r = None -> Legacy.content r = Some [] ->
  Legacy.RawResponse r = Some raw -> http.ContentLength raw = 0%Z ->
  Legacy.Content lib n r = Some (Returns (None, None), r) /\
  Legacy.Text lib n r = Some (Returns (EmptyString, None), r) /\
  Legacy.Json lib n r = Some (Returns (Legacy.parse lib None), r).
Proof.
  intros He Hc Hraw Hlen.
  assert (Hl : Legacy.loadContent lib n r = Some (Returns None, r)).
  { unfold Legacy.loadContent. rewrite He, Hc, Hraw, Hlen. reflexivity. }
  assert (HC : Legacy.Content lib n r = Some (Returns (None, None), r)).
  { unfold Legacy.Content. rewrite Hl, Hc. reflexivity. }
  split; [exact HC|]. split.
  - unfold Legacy.Text. rewrite Hl, Hc. reflexivity.
  - unfold Legacy.Json. rewrite He, HC. reflexivity.
Qed.

Lemma Legacy_declared_empty_is_not_read_witness :
  Legacy.Content stored_library 0 (legacy_of declared_empty) =
    Some (Returns (None, None), legacy_of declared_empty) /\
  Legacy.Text stored_library 0 (legacy_of declared_empty) =
    Some (Returns (EmptyString, None), legacy_of declared_empty) /\
  Legacy.Json stored_library 0 (legacy_of declared_empty) =
    Some (Returns (Legacy.parse stored_library None), legacy_of declared_empty).
Proof.
  apply (Legacy_declared_empty_is_not_read stored_library 0 (legacy_of declared_empty)
           declared_empty); reflexivity.
Defined.

(** X15 (earlier version). A body that is not empty and not JSON does no
    harm: when Content() returns bytes that the parser rejects, Json()
    returns the parser's error, records no error, leaves the same response
    behind as Content(), and Content() on it still returns the bytes. *)
Theorem Legacy_parse_error_keeps_bytes (lib : Library) n r data r' e :
  Legacy.Content lib n r = Some (Returns (Some data, None), r') ->
  json_Unmarshal lib data = inr e ->
  Legacy.Json lib n r = Some (Returns (None, Some e), r') /\
  Legacy.internalError r' = None /\
  forall m, Legacy.Content lib m r' = Some (Returns (Some data, None), r').
Proof.
  intros H Hjson.
  destruct (Legacy_Content_bytes lib n r data r' H) as (He & He' & b & bs & Hdata & Hc).
  split; [|split; [exact He'|]].
  - unfold Legacy.Json, Legacy.parse. rewrite He, H. cbn [default from_option id].
    rewrite Hjson. reflexivity.
  - intros m. rewrite Hdata.
    exact (proj1 (proj2 (Legacy_buffer_is_served lib m r' b bs He' Hc))).
Qed.

Lemma Legacy_parse_error_keeps_bytes_witness :
  Legacy.Json stored_library 2 (legacy_of (plain 200 "a")) =
    Some (Returns (None, Some (json_SyntaxError "invalid character")), legacy_loaded_a) /\
  Legacy.internalError legacy_loaded_a = None /\
  forall m, Legacy.Content stored_library m legacy_loaded_a =
            Some (Returns (Some (bytes_of "a"), None), legacy_loaded_a).
Proof.
  apply (Legacy_parse_error_keeps_bytes stored_library 2 (legacy_of (plain 200 "a"))
           (bytes_of "a") legacy_loaded_a); vm_compute; reflexivity.
Defined.

(** ** The earlier version: a body that breaks off *)

(** X16 (earlier version). When a body of undeclared length (no
    Content-Length: the buffer is not grown beforehand), read as it is,
    breaks off after at least one byte, Content() returns the error of
    the body, records nothing and keeps the bytes that had arrived in the
    buffer: every later Content() returns those bytes, with no error, as if
    they were the body. *)
Theorem Legacy_truncated_body_is_served (lib : Library) n r raw s e b bs :
  Legacy.internalError r = None -> Legacy.content r = Some [] ->
  Legacy.RawResponse r = Some raw -> http.Body raw = Some s ->
  (http.ContentLength raw < 0)%Z ->
  encoding_of (Header_Get (Legacy.Header r) "Content-Encoding") = None ->
  closed s = false -> failure s = Some e -> error_eqb_EOF e = false ->
  pending s = b :: bs -> (length (pending s) < n)%nat ->
  exists r',
    Legacy.Content lib n r = Some (Returns (None, Some e), r') /\
    Legacy.internalError r' = None /\
    closed <$> Legacy.stream r' = Some true /\
    forall m, Legacy.Content lib m r' = Some (Returns (Some (b :: bs), None), r').
Proof.
  intros He Hc Hraw Hbody Hneg Henc Hopen Hf Heof Hp Hlen.
  assert (Hlen0 : http.ContentLength raw <> 0%Z) by lia.
  assert (Hgrow : (http.ContentLength raw <= maxAlloc)%Z) by (unfold maxAlloc; lia).
  assert (Hs : Legacy.stream r = Some s)
    by (unfold Legacy.stream; rewrite Hraw; exact Hbody).
  destruct n as [|n]; [lia|].
  destruct (body_read_until_error (S n) 512 [] s Hopen ltac:(lia) Hlen) as [k Hk].
  set (s1 := mkStream [] (failure s) false (reads s + S k) (closes s)) in Hk.
  set (r1 := Legacy.with_content (pending s) (Legacy.with_Body s1 r)).
  assert (He1 : Legacy.internalError r1 = None) by exact He.
  assert (Hs1 : Legacy.stream r1 = Some s1) by exact (Legacy_with_Body_stream r s s1 Hs).
  destruct (Legacy_deferred_at_end n Legacy.self_ReadCloser r1 s1 (or_introl eq_refl)
              He1 Hs1 (or_intror eq_refl)) as (s' & Hd & Hcl & _).
  assert (Hload : Legacy.loadContent lib (S n) r =
                  Some (Returns (Some e), Legacy.with_Body s' r1)).
  { unfold Legacy.loadContent. rewrite He, Hc. cbn [length Nat.eqb negb]. rewrite Hraw.
    rewrite (proj2 (Z.eqb_neq _ _) Hlen0), (Legacy_Grow_returns _ Hgrow).
    unfold Legacy.loadContent_body, Legacy.select_reader. rewrite Henc. cbv beta match.
    unfold Legacy.copy_to_content.
    rewrite (Legacy_read_until_error true (S n) 512 [] r s He Hs), Hk.
    rewrite Hf. cbn [default from_option id]. rewrite Heof.
    change (Legacy.content (Legacy.with_Body s1 r)) with (Legacy.content r). rewrite Hc.
    cbn [default from_option id app negb]. rewrite Heof. cbn [negb].
    fold r1. rewrite Hd. reflexivity. }
  exists (Legacy.with_Body s' r1). split; [|split; [exact He|split]].
  - unfold Legacy.Content. rewrite Hload. reflexivity.
  - rewrite (Legacy_with_Body_stream r1 s1 s' Hs1). cbn. rewrite Hcl. reflexivity.
  - intros m.
    refine (proj1 (proj2 (Legacy_buffer_is_served lib m (Legacy.with_Body s' r1) b bs He _))).
    cbn [Legacy.content Legacy.with_Body r1 Legacy.with_content]. rewrite Hp. reflexivity.
Qed.

Lemma Legacy_truncated_body_is_served_witness :
  exists r',
    Legacy.Content stored_library 3 (legacy_of interrupted) =
      Some (Returns (None, Some reset_by_peer), r') /\
    Legacy.internalError r' = None /\
    closed <$> Legacy.stream r' = Some true /\
    forall m, Legacy.Content stored_library m r' =
              Some (Returns (Some (bytes_of "ab"), None), r').
Proof.
  apply (Legacy_truncated_body_is_served stored_library 3 (legacy_of interrupted)
           interrupted (mkStream (bytes_of "ab") (Some reset_by_peer) false 0 0)
           reset_by_peer);
    first [reflexivity | discriminate | vm_compute; lia
          | vm_compute; intros H; discriminate H].
Defined.

(** X17 (earlier version). Whenever the declared length is not zero and
    not above the length of the body (nor above what the buffer can grow
    to) and the body announced as gzip or deflate starts with bytes that
    NewReader refuses as a header, Content() panics with a nil pointer
    dereference; the deferred r.Close() runs first, so the body has been
    drained and closed. *)
Theorem Legacy_rejected_header_panics (lib : Library) n r raw s c e :
  Legacy.internalError r = None -> Legacy.content r = Some [] ->
  Legacy.RawResponse r = Some raw -> http.Body raw = Some s ->
  http.ContentLength raw <> 0%Z ->
  (http.ContentLength raw <= Z.of_nat (length (pending s)))%Z ->
  (http.ContentLength raw <= maxAlloc)%Z ->
  encoding_of (Header_Get (Legacy.Header r) "Content-Encoding") = Some c ->
  closed s = false -> (length (pending s) < n)%nat ->
  parse_header c (take 4096 (pending s)) = header_bad e ->
  exists r',
    Legacy.Content lib n r = Some (Panics nil_dereference, r') /\
    closed <$> Legacy.stream r' = Some true.
Proof.
  intros He Hc Hraw Hbody Hlen0 _ Hgrow Henc Hopen Hlen Hhdr.
  assert (Hs : Legacy.stream r = Some s)
    by (unfold Legacy.stream; rewrite Hraw; exact Hbody).
  destruct n as [|n]; [lia|].
  set (s1 := mkStream (drop 4096 (pending s)) (failure s) false (S (reads s)) (closes s)).
  assert (Hs1 : Legacy.stream (Legacy.with_Body s1 r) = Some s1)
    by exact (Legacy_with_Body_stream r s s1 Hs).
  destruct (Legacy_Close_open (S n) (Legacy.with_Body s1 r) s1 He Hs1 eq_refl) as [k Hk].
  { cbn [pending s1]. rewrite length_drop. lia. }
  rewrite (Legacy_with_Body_twice r s s1 _ Hs) in Hk.
  eexists. split.
  - unfold Legacy.Content, Legacy.loadContent. rewrite He, Hc. cbn [length Nat.eqb negb].
    rewrite Hraw. rewrite (proj2 (Z.eqb_neq _ _) Hlen0), (Legacy_Grow_returns _ Hgrow).
    unfold Legacy.loadContent_body, Legacy.select_reader, Legacy.new_decompressor, NewReader.
    rewrite Henc. cbv beta match.
    rewrite (Legacy_read_header (S n) c [] r s He Hs).
    rewrite (body_read_header_bad n _ s e Hopen Hhdr). fold s1. cbv beta match.
    unfold Legacy.loadContent_deferred.
    destruct c; cbv beta match; rewrite Hk; reflexivity.
  - rewrite (Legacy_with_Body_stream r s _ Hs). reflexivity.
Qed.

Lemma Legacy_rejected_header_panics_witness :
  (exists r',
    Legacy.Content stored_library 27 (legacy_of (mislabelled "gzip")) =
      Some (Panics nil_dereference, r') /\
    closed <$> Legacy.stream r' = Some true) /\
  (exists r',
    Legacy.Content stored_library 27 (legacy_of deflated_with_other_dictionary) =
      Some (Panics nil_dereference, r') /\
    closed <$> Legacy.stream r' = Some true).
Proof.
  split.
  - apply (Legacy_rejected_header_panics stored_library 27 (legacy_of (mislabelled "gzip"))
             (mislabelled "gzip") (open_stream not_compressed) Gzip gzip_ErrHeader);
      first [reflexivity | discriminate | vm_compute; lia
            | vm_compute; intros H; discriminate H].
  - apply (Legacy_rejected_header_panics stored_library 27
             (legacy_of deflated_with_other_dictionary) deflated_with_other_dictionary
             (open_stream ([x78; x20; x00; x00; x00; x02] ++ bytes_of "AB"))
             Deflate zlib_ErrDictionary);
      first [reflexivity | discriminate | vm_compute; lia
            | vm_compute; intros H; discriminate H].
Defined.

(** ** The earlier version: a declared length that cannot be had *)

(** X21 (earlier version). A declared length above what the runtime
    hands out makes r.content.Grow panic with bytes.ErrTooLarge: Content,
    Text and Json panic before the defer statement, so the body is neither
    read nor closed and the response is left as it was, whatever the body
    and the Content-Encoding header are. *)
Theorem Legacy_declared_length_too_large (lib : Library) n r raw :
  Legacy.internalError r = None -> Legacy.content r = Some [] ->
  Legacy.RawResponse r = Some raw -> (maxAlloc < http.ContentLength raw)%Z ->
  Legacy.Content lib n r = Some (Panics "bytes.Buffer: too large", r) /\
  Legacy.Text lib n r = Some (Panics "bytes.Buffer: too large", r) /\
  Legacy.Json lib n r = Some (Panics "bytes.Buffer: too large", r).
Proof.
  intros He Hc Hraw Hlen.
  assert (Hl : Legacy.loadContent lib n r = Some (Panics "bytes.Buffer: too large", r)).
  { unfold Legacy.loadContent. rewrite He, Hc. cbn [length Nat.eqb negb]. rewrite Hraw.
    assert (H0 : (0 < http.ContentLength raw)%Z) by (unfold maxAlloc in Hlen; lia).
    rewrite (proj2 (Z.eqb_neq _ _)) by lia.
    rewrite (proj2 (Z.ltb_lt _ _) H0). unfold Buffer_Grow.
    rewrite (proj2 (Z.ltb_lt _ _) Hlen). reflexivity. }
  assert (HC : Legacy.Content lib n r = Some (Panics "bytes.Buffer: too large", r))
    by (unfold Legacy.Content; rewrite Hl; reflexivity).
  split; [exact HC|]. split.
  - unfold Legacy.Text. rewrite Hl. reflexivity.
  - unfold Legacy.Json. rewrite He, HC. reflexivity.
Qed.

Lemma Legacy_declared_length_too_large_witness :
  Legacy.Content stored_library 2 (legacy_of declared_too_large) =
    Some (Panics "bytes.Buffer: too large", legacy_of declared_too_large) /\
  Legacy.Text stored_library 2 (legacy_of declared_too_large) =
    Some (Panics "bytes.Buffer: too large", legacy_of declared_too_large) /\
  Legacy.Json stored_library 2 (legacy_of declared_too_large) =
    Some (Panics "bytes.Buffer: too large", legacy_of declared_too_large).
Proof.
  apply (Legacy_declared_length_too_large stored_library 2 (legacy_of declared_too_large)
           declared_too_large);
    first [reflexivity | vm_compute; reflexivity].
Defined.

(** ** The earlier version: SaveContent *)

Lemma Legacy_Read_eq n r s :
  Legacy.internalError r = None -> Legacy.stream r = Some s ->
  Legacy.Read n r =
  (Returns (Z.of_nat (length (Stream_Read n s).1.1), (Stream_Read n s).1.1,
            (Stream_Read n s).1.2),
   Legacy.with_Body (Stream_Read n s).2 r).
Proof.
  unfold Legacy.Read, Legacy.stream. intros -> Hs.
  destruct (Legacy.RawResponse r) as [raw|]; [|done]. cbn in Hs. rewrite Hs.
  destruct (Stream_Read n s) as [[bs e] s']. reflexivity.
Qed.

(* io.Copy(f, r) on an open body: the file receives what the body holds *)
Lemma Legacy_copy_to_file_open path budget :
  forall r s fs old,
    Legacy.internalError r = None -> Legacy.stream r = Some s ->
    closed s = false -> free_space fs = None -> files fs !! path = Some old ->
    (length (pending s) < budget)%nat ->
    exists k fs',
      Legacy.copy_to_file budget path (r, fs) =
        Some (Returns (if error_eqb_EOF (default io_EOF (failure s)) then None
                       else Some (default io_EOF (failure s))),
              (Legacy.with_Body (mkStream [] (failure s) false (reads s + S k) (closes s)) r,
               fs')) /\
      files fs' !! path = Some (old ++ pending s) /\
      free_space fs' = None /\ read_only fs' = read_only fs /\
      forall other, other <> path -> files fs' !! other = files fs !! other.
Proof.
  assert (Hbuf : (0 < 32768)%nat) by (apply Nat.ltb_lt; vm_compute; reflexivity).
  induction budget as [|budget IH]; intros r s fs old He Hs Hopen Hfree Hold Hlen; [lia|].
  cbn [Legacy.copy_to_file]. generalize dependent 32768%nat. intros bufsz Hbuf.
  rewrite (Legacy_Read_eq bufsz r s He Hs).
  destruct (pending s) as [|x xs] eqn:Hp.
  - rewrite (Stream_Read_end _ _ Hopen Hp). cbn [fst snd length Z.of_nat Z.ltb Z.compare].
    exists 0%nat, fs. rewrite Nat.add_1_r, app_nil_r. done.
  - rewrite (Stream_Read_chunk _ _ _ _ Hopen Hp). cbn [fst snd].
    assert (Hpos : (0 <? Z.of_nat (length (take bufsz (x :: xs))))%Z = true).
    { apply Z.ltb_lt. rewrite length_take. cbn [length]. lia. }
    rewrite Hpos. unfold File_Write. rewrite Hfree, Hold. cbn [default from_option id].
    set (s1 := mkStream (drop bufsz (x :: xs)) (failure s) false (S (reads s)) (closes s)).
    set (fs1 := mkFS (<[path := old ++ take bufsz (x :: xs)]> (files fs)) (read_only fs) None).
    destruct (IH (Legacy.with_Body s1 r) s1 fs1 (old ++ take bufsz (x :: xs)) He
                (Legacy_with_Body_stream r s s1 Hs) eq_refl eq_refl)
      as (k & fs' & Hcopy & Hfile & Hfree' & Hro & Hother).
    { cbn [files fs1]. apply lookup_insert_eq. }
    { cbn [pending s1]. rewrite length_drop. cbn [length] in *. lia. }
    exists (S k), fs'. rewrite Hcopy.
    rewrite (Legacy_with_Body_twice r s s1 _ Hs). cbn [pending failure reads closes s1].
    replace (S (reads s) + S k)%nat with (reads s + S (S k))%nat by lia.
    split; [reflexivity|]. split; [|split; [exact Hfree'|split; [exact Hro|]]].
    + rewrite Hfile. cbn [pending s1]. rewrite <- app_assoc, take_drop. reflexivity.
    + intros other Hne. rewrite (Hother other Hne). cbn [files fs1].
      rewrite lookup_insert_ne by done. reflexivity.
Qed.

(** X18 (earlier version). SaveContent on a response that has not been
    read (empty buffer, open body) copies the body to the file as it
    arrives, whatever the Content-Encoding header says: when it returns,
    the file holds exactly the bytes the body held, the buffer is still
    empty and the body is closed; when the body breaks off, the file holds
    the bytes that arrived and the error is returned wrapped in
    "SaveContent error".  No other file is touched. *)
Theorem Legacy_SaveContent_of_unread path n r s fs :
  Legacy.internalError r = None -> Legacy.content r = Some [] ->
  Legacy.stream r = Some s -> closed s = false ->
  path ∉ read_only fs -> free_space fs = None ->
  (length (pending s) < n)%nat ->
  exists r' fs',
    Legacy.SaveContent path n (r, fs) =
      Some (Returns (match failure s with
                     | None => None
                     | Some e => if error_eqb_EOF e then None
                                 else Some (fmt_Errorf "SaveContent error" e)
                     end), (r', fs')) /\
    files fs' !! path = Some (pending s) /\
    Legacy.content r' = Some [] /\
    closed <$> Legacy.stream r' = Some true /\
    forall other, other <> path -> files fs' !! other = files fs !! other.
Proof.
  intros He Hc Hs Hopen Hpath Hfree Hlen.
  destruct n as [|n]; [lia|].
  unfold Legacy.SaveContent, os_Create. rewrite He.
  destruct (decide (path ∈ read_only fs)); [done|].
  unfold Legacy.getContent. rewrite Hc. cbn [length Nat.eqb].
  set (fs1 := mkFS (<[path := []]> (files fs)) (read_only fs) (free_space fs)).
  destruct (Legacy_copy_to_file_open path (S n) r s fs1 [] He Hs Hopen Hfree
              (lookup_insert_eq _ _ _) Hlen)
    as (k & fs' & Hcopy & Hfile & _ & _ & Hother).
  rewrite Hcopy.
  set (s1 := mkStream [] (failure s) false (reads s + S k) (closes s)).
  rewrite (Legacy_Close_at_end n (Legacy.with_Body s1 r) s1 He
             (Legacy_with_Body_stream r s s1 Hs) (or_intror eq_refl)).
  rewrite (Legacy_with_Body_twice r s s1 _ Hs).
  exists (Legacy.with_Body (mkStream [] (failure s) true (S (reads s + S k))
                                     (S (closes s))) r), fs'.
  split; [|split; [exact Hfile|split; [exact Hc|split]]].
  - destruct (failure s) as [e|]; cbn [default from_option id error_eqb_EOF];
      [destruct (error_eqb_EOF e) eqn:Heof; cbn [negb]; rewrite ?Heof|]; reflexivity.
  - rewrite (Legacy_with_Body_stream r s _ Hs). reflexivity.
  - intros other Hne. rewrite (Hother other Hne). cbn [files fs1].
    rewrite lookup_insert_ne by done. reflexivity.
Qed.

Lemma Legacy_SaveContent_of_unread_witness :
  exists r' fs',
    Legacy.SaveContent "/tmp/x" 13 (legacy_of gzipped, disk_with_old_file) =
      Some (Returns None, (r', fs')) /\
    files fs' !! "/tmp/x"%string = Some gzip_member /\
    Legacy.content r' = Some [] /\
    closed <$> Legacy.stream r' = Some true /\
    forall other, other <> "/tmp/x"%string ->
                  files fs' !! other = files disk_with_old_file !! other.
Proof.
  apply (Legacy_SaveContent_of_unread "/tmp/x" 13 (legacy_of gzipped)
           (open_stream gzip_member) disk_with_old_file);
    first [reflexivity | vm_compute; lia | vm_compute; intros H; discriminate H].
Defined.

(** X19 (earlier version). SaveContent on a response whose buffer holds
    bytes (and whose body is closed or at its end) writes exactly the
    buffer to the file and empties the buffer: afterwards the response
    holds no bytes any more.  No other file is touched. *)
Theorem Legacy_SaveContent_of_loaded path n r s fs b bs :
  Legacy.internalError r = None -> Legacy.content r = Some (b :: bs) ->
  Legacy.stream r = Some s -> closed s = true \/ pending s = [] ->
  path ∉ read_only fs -> free_space fs = None ->
  exists r' fs',
    Legacy.SaveContent path (S n) (r, fs) = Some (Returns None, (r', fs')) /\
    files fs' !! path = Some (b :: bs) /\
    Legacy.content r' = Some [] /\
    Legacy.getContent r' = Returns None /\
    forall other, other <> path -> files fs' !! other = files fs !! other.
Proof.
  intros He Hc Hs Hend Hpath Hfree.
  unfold Legacy.SaveContent, os_Create. rewrite He.
  destruct (decide (path ∈ read_only fs)); [done|].
  unfold Legacy.getContent at 1. rewrite Hc. cbn [length Nat.eqb].
  unfold Legacy.content_WriteTo, File_Write. cbn [files free_space read_only].
  rewrite Hfree, lookup_insert_eq. cbn [default from_option id app].
  rewrite (Legacy_Close_at_end n (Legacy.with_content [] r) s He Hs Hend).
  do 2 eexists. split; [reflexivity|]. cbn [files].
  split; [apply lookup_insert_eq|]. split; [reflexivity|]. split; [reflexivity|].
  intros other Hne. rewrite !lookup_insert_ne by done. reflexivity.
Qed.

Lemma Legacy_SaveContent_of_loaded_witness :
  exists r' fs',
    Legacy.SaveContent "/tmp/x" 1 (legacy_loaded_a, disk_with_old_file) =
      Some (Returns None, (r', fs')) /\
    files fs' !! "/tmp/x"%string = Some (bytes_of "a") /\
    Legacy.content r' = Some [] /\
    Legacy.getContent r' = Returns None /\
    forall other, other <> "/tmp/x"%string ->
                  files fs' !! other = files disk_with_old_file !! other.
Proof.
  apply (Legacy_SaveContent_of_loaded "/tmp/x" 0 legacy_loaded_a
           (mkStream [] None true 4 2) disk_with_old_file);
    first [reflexivity | left; reflexivity | vm_compute; intros H; discriminate H].
Defined.

(** X20 (both versions). When os.Create fails, SaveContent returns its
    error (as it is in response.go, wrapped in "SaveContent error" in the
    earlier version) and has touched neither the response, whose body is
    not read, nor the file system. *)
Theorem SaveContent_without_file (lib : Library) path n fs :
  path ∈ read_only fs ->
  (forall r,
      Current.SaveContent lib path n (r, fs) =
      Some (Returns (Some (os_PathError path)), (r, fs))) /\
  (forall r,
      Legacy.internalError r = None ->
      Legacy.SaveContent path n (r, fs) =
      Some (Returns (Some (fmt_Errorf "SaveContent error" (os_PathError path))), (r, fs))).
Proof.
  intros Hpath. split.
  - intros r. unfold Current.SaveContent, os_Create.
    destruct (decide (path ∈ read_only fs)); [reflexivity|done].
  - intros r He. unfold Legacy.SaveContent, os_Create. rewrite He.
    destruct (decide (path ∈ read_only fs)); [reflexivity|done].
Qed.

Lemma SaveContent_without_file_witness :
  Current.SaveContent stored_library "/tmp/x" 5 (fresh_a, disk_without_access) =
    Some (Returns (Some (os_PathError "/tmp/x")), (fresh_a, disk_without_access)) /\
  Legacy.SaveContent "/tmp/x" 5 (legacy_of gzipped, disk_without_access) =
    Some (Returns (Some (fmt_Errorf "SaveContent error" (os_PathError "/tmp/x"))),
          (legacy_of gzipped, disk_without_access)).
Proof.
  assert (Hpath : "/tmp/x"%string ∈ read_only disk_without_access)
    by (vm_compute; reflexivity).
  destruct (SaveContent_without_file stored_library "/tmp/x" 5 disk_without_access Hpath)
    as [HC HL].
  split; [exact (HC fresh_a)|exact (HL (legacy_of gzipped) eq_refl)].
Defined.
